(** * Qubit-Quests: the VQE dashboard's generators, derived metrics and export

    A shallow embedding of [src/App.tsx] (the [App] component: [runVQE],
    [generateDissociationCurve], [exportResults] and the analysis panel) and of
    the [ResultsTable] component.

    Numbers.  A JavaScript [number] that holds an energy, a bond length or a
    progress value is modelled as a real number ([R]) with exact arithmetic;
    [Math.exp] is the real exponential and [Math.abs] is [Rabs].  Loop
    counters and the integer-valued diagnostics are [nat]; [shots] is [Z].

    Effects.  The three handlers are closures over the component state of the
    render that created them.  Each is modelled as a function from that state
    to the list of effects it performs, in program order: one constructor per
    state setter, one for each [await] of a timer, one for the download.
    [Math.random] is an oracle: [random k] is the value of the k-th call.

    Rounding.  The program computes in binary64.  Where a statement is as
    tight as the rounding of one operation (the noise bound, the round trip
    through electronvolts), the same expressions are also given over
    primitive floats, to evaluate them as the program does, and over reals
    with every operation followed by a rounding [fl] of bounded relative
    error, to bound what rounding can add. *)

From Stdlib Require Import PrimFloat FloatOps.
From Stdlib Require Import Reals Lra Lia List String Arith ZArith Bool Sorted.
From Stdlib Require Import Factorial.
Set Warnings "-inexact-float".
Import ListNotations.
Open Scope R_scope.

(** ** Data model (the interfaces of [App.tsx]) *)

Inductive Molecule : Set := H2 | LiH.

Record MoleculeConfig := {
  molecule : Molecule;
  bondLength : R;
  basis : string;
  ansatz : string;
  optimizer : string;
  backend : string;
  shots : Z;
  maxIterations : Z
}.

Record ConvergencePoint := { iteration : nat; cp_energy : R }.

Record Diagnostics := {
  qubits : nat;
  pauliTerms : nat;
  circuitDepth : nat;
  evaluations : nat;
  totalShots : Z;
  error : R
}.

Record VQEResult := {
  energy : R;
  convergence : list ConvergencePoint;
  diagnostics : Diagnostics
}.

Record DissociationPoint := { r : R; dp_energy : R }.

(** The [useState] cells of [App]. *)
Record AppState := {
  config : MoleculeConfig;
  isRunning : bool;
  progress : R;
  results : option VQEResult;
  dissociationData : list DissociationPoint
}.

(** The record [exportResults] serializes. *)
Record ExportData := {
  configuration : MoleculeConfig;
  exp_results : option VQEResult;
  dissociation : list DissociationPoint
}.

(** ** Effects *)

Inductive Effect :=
| SetIsRunning (b : bool)
| SetProgress (p : R)
| SetResults (v : VQEResult)
| SetDissociationData (d : list DissociationPoint)
| Await (ms : nat)
| Download (filename mime document : string).

Definition apply (s : AppState) (e : Effect) : AppState :=
  match e with
  | SetIsRunning b =>
      {| config := config s; isRunning := b; progress := progress s;
         results := results s; dissociationData := dissociationData s |}
  | SetProgress p =>
      {| config := config s; isRunning := isRunning s; progress := p;
         results := results s; dissociationData := dissociationData s |}
  | SetResults v =>
      {| config := config s; isRunning := isRunning s; progress := progress s;
         results := Some v; dissociationData := dissociationData s |}
  | SetDissociationData d =>
      {| config := config s; isRunning := isRunning s; progress := progress s;
         results := results s; dissociationData := d |}
  | Await _ => s
  | Download _ _ _ => s
  end.

(** The state after a list of effects, and the states after each of them. *)
Definition exec (s : AppState) (es : list Effect) : AppState :=
  fold_left apply es s.

Fixpoint states (s : AppState) (es : list Effect) : list AppState :=
  match es with
  | [] => [s]
  | e :: es' => s :: states (apply s e) es'
  end.

(** The snapshots a list of effects publishes ([setResults] calls, in order). *)
Fixpoint published (es : list Effect) : list VQEResult :=
  match es with
  | [] => []
  | SetResults v :: es' => v :: published es'
  | _ :: es' => published es'
  end.

(** The sequences handed to [setDissociationData], in order. *)
Fixpoint curves (es : list Effect) : list (list DissociationPoint) :=
  match es with
  | [] => []
  | SetDissociationData d :: es' => d :: curves es'
  | _ :: es' => curves es'
  end.

(** What the convergence plot is given: [results?.convergence || []]. *)
Definition shownConvergence (s : AppState) : list ConvergencePoint :=
  match results s with
  | Some v => convergence v
  | None => []
  end.

(** ** The convergence simulator, [runVQE] *)

Definition totalIterations : nat := 50.

Definition baseEnergy (c : MoleculeConfig) : R :=
  match molecule c with
  | H2 => -1.13727
  | LiH => -7.8773
  end.

(** [Math.exp(-i * 0.1) * 0.01 * (Math.random() - 0.5)] *)
Definition noise (i : nat) (rnd : R) : R :=
  exp (- INR i * 0.1) * 0.01 * (rnd - 0.5).

Definition snapshot (c : MoleculeConfig) (i : nat) (e : R)
    (convergenceData : list ConvergencePoint) : VQEResult :=
  {| energy := e;
     convergence := convergenceData;
     diagnostics :=
       {| qubits := match molecule c with H2 => 2 | LiH => 8 end;
          pauliTerms := match molecule c with H2 => 5 | LiH => 24 end;
          circuitDepth := if String.eqb (ansatz c) "UCCSD" then 12 else 6;
          evaluations := i + 1;
          totalShots :=
            if String.eqb (backend c) "statevector" then 0%Z
            else (shots c * Z.of_nat (i + 1))%Z;
          error := Rabs (e - baseEnergy c) * 1000 |} |}.

(** One pass through the loop body at counter [i]: the array after the
    [push], and the effects of the pass. *)
Definition vqe_body (c : MoleculeConfig) (rnd : R) (i : nat)
    (convergenceData : list ConvergencePoint)
  : list ConvergencePoint * list Effect :=
  let e := baseEnergy c + noise i rnd in
  let convergenceData' := convergenceData ++ [{| iteration := i; cp_energy := e |}] in
  (convergenceData',
   Await 100
   :: SetProgress (INR i / INR totalIterations * 100)
   :: (if (i mod 5 =? 0)%nat
       then [SetResults (snapshot c i e convergenceData')]
       else [])).

(** [for (let i = ...; i <= totalIterations; i++)] with [n] passes left. *)
Fixpoint vqe_loop (c : MoleculeConfig) (random : nat -> R) (n i : nat)
    (convergenceData : list ConvergencePoint)
  : list ConvergencePoint * list Effect :=
  match n with
  | O => (convergenceData, [])
  | S n' =>
      let (cd1, es1) := vqe_body c (random i) i convergenceData in
      let (cd2, es2) := vqe_loop c random n' (S i) cd1 in
      (cd2, es1 ++ es2)
  end.

(** The statements of [runVQE] before its loop. *)
Definition runVQE_start : list Effect := [SetIsRunning true; SetProgress 0].

Definition runVQE (s : AppState) (random : nat -> R) : list Effect :=
  runVQE_start
  ++ snd (vqe_loop (config s) random (S totalIterations) 0 [])
  ++ [SetIsRunning false].

(** The local array [convergenceData] after [k] passes of the loop
    ([k = 0]: as declared, before the first pass). *)
Definition convergenceData_after (s : AppState) (random : nat -> R) (k : nat)
  : list ConvergencePoint :=
  fst (vqe_loop (config s) random k 0 []).

(** ** The dissociation curve generator, [generateDissociationCurve] *)

(** [Array.from({ length: 15 }, (_, i) => 0.4 + i * 0.15)] *)
Definition bondLengths : list R :=
  map (fun i : nat => 0.4 + INR i * 0.15) (seq 0 15).

Definition D : R := 0.4556.
Definition a : R := 1.44.
Definition re : R := 0.74.

(** [-1.13727 + D * Math.pow(1 - Math.exp(-a * (r - re)), 2) - D] *)
Definition morse (x : R) : R :=
  -1.13727 + D * (1 - exp (- a * (x - re))) ^ 2 - D.

(** One pass through the loop body at counter [i], which the loop keeps
    below [bondLengths.length] (the default of [nth] is never read). *)
Definition curve_body (i : nat) (curveData : list DissociationPoint)
  : list DissociationPoint * list Effect :=
  let x := nth i bondLengths 0 in
  (curveData ++ [{| r := x; dp_energy := morse x |}],
   [Await 200; SetProgress (INR i / INR (List.length bondLengths) * 100)]).

(** [for (let i = ...; i < bondLengths.length; i++)] with [n] passes left. *)
Fixpoint curve_loop (n i : nat) (curveData : list DissociationPoint)
  : list DissociationPoint * list Effect :=
  match n with
  | O => (curveData, [])
  | S n' =>
      let (cd1, es1) := curve_body i curveData in
      let (cd2, es2) := curve_loop n' (S i) cd1 in
      (cd2, es1 ++ es2)
  end.

Definition generateDissociationCurve (s : AppState) : list Effect :=
  let (curveData, es) := curve_loop (List.length bondLengths) 0 [] in
  [SetIsRunning true] ++ es ++ [SetDissociationData curveData; SetIsRunning false].

(** ** Export, [exportResults] *)

Definition moleculeName (m : Molecule) : string :=
  match m with H2 => "H2" | LiH => "LiH" end.

Section ExportHandler.
(** [JSON.stringify(data, null, 2)] and the conversion of a number inside a
    template literal, neither of which this development looks into. *)
Variable JSON_stringify : ExportData -> nat -> string.
Variable Number_toString : R -> string.

Definition exportName (c : MoleculeConfig) : string :=
  ("vqe_results_" ++ moleculeName (molecule c) ++ "_"
     ++ Number_toString (bondLength c) ++ "A.json")%string.

Definition exportResults (s : AppState) : list Effect :=
  match results s with
  | None => []
  | Some _ =>
      let data := {| configuration := config s;
                     exp_results := results s;
                     dissociation := dissociationData s |} in
      [Download (exportName (config s)) "application/json"
                (JSON_stringify data 2%nat)]
  end.
End ExportHandler.

(** ** Derived metrics ([ResultsTable] and the analysis panel of [App]) *)

Definition hfEnergy (c : MoleculeConfig) : R :=
  match molecule c with H2 => -1.1167 | LiH => -7.8634 end.

Definition exactEnergy (c : MoleculeConfig) : R :=
  match molecule c with H2 => -1.1373 | LiH => -7.8811 end.

(** [results.energy * 27.2114], the value shown in eV. *)
Definition hartreeToEV (e : R) : R := e * 27.2114.

(** [(results.energy - reference) * 1000], a difference in milli-Hartree. *)
Definition diffMilliHartree (e reference : R) : R := (e - reference) * 1000.

(** [results.diagnostics.error < 1.6] *)
Definition chemicalAccuracy (err : R) : bool :=
  if Rlt_dec err 1.6 then true else false.

(** The label of the analysis panel ([App.tsx]) and the mark of the
    convergence summary ([ResultsTable]). *)
Definition accuracyLabel (v : VQEResult) : string :=
  if chemicalAccuracy (error (diagnostics v)) then "✓ Achieved" else "✗ Not reached".

Definition accuracyMark (v : VQEResult) : string :=
  if chemicalAccuracy (error (diagnostics v)) then "✓" else "○".

(** ** Names used in the statements *)

(** The point pushed by the pass at counter [k]. *)
Definition pointAt (c : MoleculeConfig) (random : nat -> R) (k : nat)
  : ConvergencePoint :=
  {| iteration := k; cp_energy := baseEnergy c + noise k (random k) |}.

(** The snapshot built by the pass at counter [k] of a loop started at 0 on
    the empty array. *)
Definition snapshotAt (c : MoleculeConfig) (random : nat -> R) (k : nat)
  : VQEResult :=
  snapshot c k (baseEnergy c + noise k (random k))
           (map (pointAt c random) (seq 0 (S k))).

(** [i % 5 === 0], and the counters of 0..50 that satisfy it. *)
Definition publishes (k : nat) : bool := (k mod 5 =? 0)%nat.

Definition snapshotPasses : list nat :=
  [0; 5; 10; 15; 20; 25; 30; 35; 40; 45; 50]%nat.

(** The specification's names for the two factors of the noise term. *)
Definition decay (i : nat) : R := exp (-0.1 * INR i).
Definition jitter (rnd : R) : R := 0.01 * (rnd - 0.5).

(** The points of the curve, as the specification writes them. *)
Definition morsePoint (k : nat) : DissociationPoint :=
  {| r := 0.40 + 0.15 * INR k;
     dp_energy :=
       -1.13727 + 0.4556 * (1 - exp (-1.44 * (0.40 + 0.15 * INR k - 0.74))) ^ 2
       - 0.4556 |}.

(** The length of the sequence the plot shows, and the lengths of the
    sequences a list of effects publishes. *)
Definition shownLength (s : AppState) : nat := List.length (shownConvergence s).

Definition publishedLengths (es : list Effect) : list nat :=
  map (fun v => List.length (convergence v)) (published es).

(** The length of the shown sequence never decreases along the run. *)
Definition monotoneWithinRun (s : AppState) (random : nat -> R) : Prop :=
  StronglySorted le (map shownLength (states s (runVQE s random))).

(** The shown sequence is empty when the loop of a run is entered. *)
Definition emptyAtStart (s : AppState) : Prop :=
  shownConvergence (exec s runVQE_start) = [].

Definition shownSequenceInvariant (s : AppState) (random : nat -> R) : Prop :=
  monotoneWithinRun s random /\ emptyAtStart s.

(** What a run of each generator may write. *)
Definition vqeWrites (e : Effect) : bool :=
  match e with
  | SetIsRunning _ | SetProgress _ | SetResults _ | Await _ => true
  | SetDissociationData _ | Download _ _ _ => false
  end.

Definition curveWrites (e : Effect) : bool :=
  match e with
  | SetIsRunning _ | SetProgress _ | SetDissociationData _ | Await _ => true
  | SetResults _ | Download _ _ _ => false
  end.

Definition isAwait (e : Effect) : bool :=
  match e with Await _ => true | _ => false end.

(** ** Concrete inputs *)

(** The initial values of the [useState] cells. *)
Definition initialState : AppState :=
  {| config := {| molecule := H2; bondLength := 0.74; basis := "STO-3G";
                  ansatz := "UCCSD"; optimizer := "COBYLA";
                  backend := "statevector"; shots := 4000;
                  maxIterations := 200 |};
     isRunning := false;
     progress := 0;
     results := None;
     dissociationData := [] |}.

(** A random source that always returns 0.5 (no jitter). *)
Definition midRandom : nat -> R := fun _ => 0.5.

(** The component after a first, completed run. *)
Definition afterFirstRun : AppState :=
  exec initialState (runVQE initialState midRandom).


(** A run begins with its two setter calls and the first pass, which
    publishes the snapshot of pass 0. *)
Definition firstPass (c : MoleculeConfig) (random : nat -> R) : list Effect :=
  runVQE_start
    ++ [Await 100; SetProgress (INR 0 / INR totalIterations * 100);
        SetResults (snapshotAt c random 0)].

Ltac sorted_nat :=
  repeat first
    [ apply SSorted_nil | apply SSorted_cons
    | apply Forall_nil | apply Forall_cons; [lia|] ].

(** ** What the components render from the state *)

(** The status badge of [App]:
    [isRunning ? "Computing..." : results ? "Complete" : "Ready"]. *)
Definition statusBadge (s : AppState) : string :=
  if isRunning s then "Computing..."
  else match results s with
       | Some _ => "Complete"
       | None => "Ready"
       end.

(** [disabled={isRunning}], on the run button and on the curve button. *)
Definition triggersDisabled (s : AppState) : bool := isRunning s.

(** [disabled={!results}], on the export button. *)
Definition exportDisabled (s : AppState) : bool :=
  match results s with
  | Some _ => false
  | None => true
  end.

(** The dissociation card: rendered when [dissociationData.length > 0], with
    the plot data [dissociationData.map(d => ({ iteration: d.r * 100,
    energy: d.energy }))] as pairs. *)
Definition dissociationPlot (s : AppState) : option (list (R * R)) :=
  if (0 <? List.length (dissociationData s))%nat
  then Some (map (fun d => (r d * 100, dp_energy d)) (dissociationData s))
  else None.

(** The numbers [ResultsTable] shows (before their formatting), or nothing
    when it renders the "No results available" placeholder. *)
Record ResultsView := {
  vqeHa : R;
  vqeEV : R;
  exactHa : R;
  exactEV : R;
  hfHa : R;
  hfEV : R;
  vsExact : R;
  vsHF : R;
  shownIterations : nat;
  functionCalls : nat;
  chemMark : string
}.

Definition ResultsTable (res : option VQEResult) (c : MoleculeConfig)
  : option ResultsView :=
  match res with
  | None => None
  | Some v =>
      Some {| vqeHa := energy v;
              vqeEV := hartreeToEV (energy v);
              exactHa := exactEnergy c;
              exactEV := hartreeToEV (exactEnergy c);
              hfHa := hfEnergy c;
              hfEV := hartreeToEV (hfEnergy c);
              vsExact := diffMilliHartree (energy v) (exactEnergy c);
              vsHF := diffMilliHartree (energy v) (hfEnergy c);
              shownIterations := List.length (convergence v);
              functionCalls := evaluations (diagnostics v);
              chemMark := accuracyMark v |}
  end.

(** The values handed to [setProgress] and to [setIsRunning], in order. *)
Fixpoint progressWrites (es : list Effect) : list R :=
  match es with
  | [] => []
  | SetProgress p :: es' => p :: progressWrites es'
  | _ :: es' => progressWrites es'
  end.

Fixpoint runningWrites (es : list Effect) : list bool :=
  match es with
  | [] => []
  | SetIsRunning b :: es' => b :: runningWrites es'
  | _ :: es' => runningWrites es'
  end.

Definition keepsRunning (e : Effect) : bool :=
  match e with SetIsRunning _ => false | _ => true end.

(** The effects of a run between its two writes of the running flag. *)
Definition runVQE_inner (s : AppState) (random : nat -> R) : list Effect :=
  SetProgress 0 :: snd (vqe_loop (config s) random (S totalIterations) 0 []).

Definition curve_inner : list Effect :=
  snd (curve_loop (List.length bondLengths) 0 [])
    ++ [SetDissociationData (fst (curve_loop (List.length bondLengths) 0 []))].

(** ** The numeric expressions in binary64 *)

(** [Math.exp] is a function of the runtime: a parameter here. *)
Definition baseEnergy64 (m : Molecule) : float :=
  match m with
  | H2 => (-1.13727)%float
  | LiH => (-7.8773)%float
  end.

(** [Math.exp(-i * 0.1) * 0.01 * (Math.random() - 0.5)] *)
Definition noise64 (Math_exp : float -> float) (i rnd : float) : float :=
  (Math_exp (- i * 0.1) * 0.01 * (rnd - 0.5))%float.

Definition energy64 (Math_exp : float -> float) (m : Molecule) (i rnd : float)
  : float :=
  (baseEnergy64 m + noise64 Math_exp i rnd)%float.

(** [Math.abs(energy - baseEnergy) * 1000] *)
Definition error64 (Math_exp : float -> float) (m : Molecule) (i rnd : float)
  : float :=
  (abs (energy64 Math_exp m i rnd - baseEnergy64 m) * 1000)%float.

(** [results.energy * 27.2114] *)
Definition hartreeToEV64 (e : float) : float := (e * 27.2114)%float.

(** [Math.exp] at the two arguments the examples below use: 1 at a zero, as
    the language prescribes, and at -0.5 the double nearest to the square
    root of 1/e, 0.6065306597126334. *)
Definition Math_exp_sample (x : float) : float :=
  if (x =? 0)%float then 1%float
  else if (x =? -0.5)%float then 0.6065306597126334%float
  else nan.

(** The real number a finite double stands for. *)
Definition float_to_R (f : float) : R :=
  match Prim2SF f with
  | SpecFloat.S754_finite s m e =>
      let v := match e with
               | Z0 => IZR (Zpos m)
               | Zpos p => IZR (Zpos m * 2 ^ Zpos p)
               | Zneg p => IZR (Zpos m) / IZR (2 ^ Zpos p)
               end in
      if s then - v else v
  | _ => 0
  end.

(** The same expressions over reals, every literal and every operation
    followed by the rounding [fl]; the loop counter, a small integer, and
    [Math.abs] are exact. *)
Section RoundedExpressions.
Variable fl : R -> R.
Variable Math_exp : R -> R.

Definition baseEnergy_fl (c : MoleculeConfig) : R := fl (baseEnergy c).

Definition noise_fl (i : nat) (rnd : R) : R :=
  fl (fl (Math_exp (fl (- INR i * fl 0.1)) * fl 0.01) * fl (rnd - fl 0.5)).

Definition energy_fl (c : MoleculeConfig) (i : nat) (rnd : R) : R :=
  fl (baseEnergy_fl c + noise_fl i rnd).

Definition error_fl (c : MoleculeConfig) (i : nat) (rnd : R) : R :=
  fl (Rabs (fl (energy_fl c i rnd - baseEnergy_fl c)) * fl 1000).

Definition hartreeToEV_fl (e : R) : R := fl (e * fl 27.2114).
End RoundedExpressions.

(** The unit roundoff of binary64, [2^-53], and a rounding that is always
    off by exactly that much. *)
Definition unitRoundoff : R := / 9007199254740992.

Definition roundAway (x : R) : R := x * (1 + unitRoundoff).

(** The terms and the partial sums of the series of the exponential. *)
Fixpoint expTerm (x : R) (k : nat) : R :=
  match k with
  | O => 1
  | S k' => expTerm x k' * x / INR (S k')
  end.

Fixpoint expSum (x : R) (n : nat) : R :=
  match n with
  | O => 1
  | S n' => expSum x n' + expTerm x (S n')
  end.

(** * Properties *)

(** ** Lists of effects *)

Lemma published_app (es1 es2 : list Effect) :
  published (es1 ++ es2) = published es1 ++ published es2.
Proof.
  induction es1 as [|e es1 IH]; simpl; [reflexivity|].
  destruct e; simpl; rewrite IH; reflexivity.
Qed.

Lemma curves_app (es1 es2 : list Effect) :
  curves (es1 ++ es2) = curves es1 ++ curves es2.
Proof.
  induction es1 as [|e es1 IH]; simpl; [reflexivity|].
  destruct e; simpl; rewrite IH; reflexivity.
Qed.

Lemma exec_app (s : AppState) (es1 es2 : list Effect) :
  exec s (es1 ++ es2) = exec (exec s es1) es2.
Proof. unfold exec. apply fold_left_app. Qed.

Lemma states_head (es : list Effect) (s : AppState) :
  exists l, states s es = s :: l.
Proof. destruct es; eexists; reflexivity. Qed.

Lemma states_app_in (es1 es2 : list Effect) :
  forall s, In (exec s es1) (states s (es1 ++ es2)).
Proof.
  induction es1 as [|e es1 IH]; intros s.
  - change (In s (states s es2)).
    destruct (states_head es2 s) as [l ->]. left. reflexivity.
  - right. apply (IH (apply s e)).
Qed.

(** A property of states kept by every effect of a list holds all along,
    and so at the end. *)
Lemma states_invariant (P : AppState -> Prop) (es : list Effect) :
  (forall s e, In e es -> P s -> P (apply s e)) ->
  forall s, P s -> Forall P (states s es).
Proof.
  induction es as [|e es IH]; intros Hstep s Hs; simpl.
  - constructor; [exact Hs | constructor].
  - constructor; [exact Hs|].
    apply IH.
    + intros s' e' Hin. apply Hstep. right. exact Hin.
    + apply Hstep; [left; reflexivity | exact Hs].
Qed.

Lemma states_Forall_exec (P : AppState -> Prop) (es : list Effect) :
  forall s, Forall P (states s es) -> P (exec s es).
Proof.
  induction es as [|e es IH]; intros s H; inversion H; subst.
  - assumption.
  - apply (IH (apply s e)). assumption.
Qed.

(** The stored result after a list of effects is the last one published,
    or the one stored before when none is. *)
Lemma results_exec (es : list Effect) :
  forall s,
    results (exec s es) =
    match rev (published es) with
    | v :: _ => Some v
    | [] => results s
    end.
Proof.
  induction es as [|e es IH]; intros s; [reflexivity|].
  change (exec s (e :: es)) with (exec (apply s e) es). rewrite IH.
  destruct e; cbn [published apply results]; try reflexivity.
  cbn [rev]. destruct (rev (published es)); reflexivity.
Qed.

Lemma flat_map_filter {A B : Type} (p : A -> bool) (g : A -> B) (l : list A) :
  flat_map (fun k => if p k then [g k] else []) l = map g (filter p l).
Proof.
  induction l as [|x l IH]; simpl; [reflexivity|].
  destruct (p x); simpl; rewrite IH; reflexivity.
Qed.

Lemma Forall2_map_r {A B : Type} (P : A -> B -> Prop) (f : A -> B) (l : list A) :
  (forall x, In x l -> P x (f x)) -> Forall2 P l (map f l).
Proof.
  induction l as [|x l IH]; intros H; simpl; constructor.
  - apply H. left. reflexivity.
  - apply IH. intros y Hy. apply H. right. exact Hy.
Qed.

(** ** The loop of [runVQE] *)

Section VqeLoop.
Variable c : MoleculeConfig.
Variable random : nat -> R.

(** The first pass of a loop of [n + 1] passes. *)
Lemma vqe_loop_cons (n i : nat) (cd : list ConvergencePoint) :
  snd (vqe_loop c random (S n) i cd) =
  snd (vqe_body c (random i) i cd)
    ++ snd (vqe_loop c random n (S i) (fst (vqe_body c (random i) i cd))).
Proof.
  cbn [vqe_loop]. destruct (vqe_body c (random i) i cd) as [cd1 es1].
  cbn [fst snd]. destruct (vqe_loop c random n (S i) cd1). reflexivity.
Qed.

(** The last pass of a loop of [n + 1] passes. *)
Lemma vqe_loop_snoc (n : nat) :
  forall i cd,
    vqe_loop c random (S n) i cd =
    (fst (vqe_body c (random (i + n)%nat) (i + n)
                   (fst (vqe_loop c random n i cd))),
     snd (vqe_loop c random n i cd)
       ++ snd (vqe_body c (random (i + n)%nat) (i + n)
                        (fst (vqe_loop c random n i cd)))).
Proof.
  induction n as [|n IH]; intros i cd.
  - simpl. rewrite Nat.add_0_r, app_nil_r. reflexivity.
  - change (vqe_loop c random (S (S n)) i cd) with
      (let (cd1, es1) := vqe_body c (random i) i cd in
       let (cd2, es2) := vqe_loop c random (S n) (S i) cd1 in
       (cd2, es1 ++ es2)).
    change (vqe_loop c random (S n) i cd) with
      (let (cd1, es1) := vqe_body c (random i) i cd in
       let (cd2, es2) := vqe_loop c random n (S i) cd1 in
       (cd2, es1 ++ es2)).
    destruct (vqe_body c (random i) i cd) as [cd1 es1].
    rewrite (IH (S i) cd1).
    destruct (vqe_loop c random n (S i) cd1) as [cd2 es2].
    cbn [fst snd]. rewrite <- Nat.add_succ_comm, app_assoc. reflexivity.
Qed.

(** After [n] passes the array holds the points of passes 0..n-1. *)
Lemma vqe_loop_array (n : nat) :
  fst (vqe_loop c random n 0 []) = map (pointAt c random) (seq 0 n).
Proof.
  induction n as [|n IH]; [reflexivity|].
  rewrite vqe_loop_snoc. cbn [fst vqe_body]. rewrite IH.
  rewrite seq_S, map_app. reflexivity.
Qed.

Lemma vqe_loop_published (n : nat) :
  published (snd (vqe_loop c random n 0 [])) =
  map (snapshotAt c random) (filter publishes (seq 0 n)).
Proof.
  rewrite <- flat_map_filter.
  induction n as [|n IH]; [reflexivity|].
  rewrite vqe_loop_snoc. cbn [snd]. rewrite published_app, IH.
  rewrite seq_S, flat_map_app. f_equal.
  rewrite vqe_loop_array. cbn [vqe_body snd Nat.add flat_map published].
  unfold publishes. destruct (n mod 5 =? 0)%nat.
  - cbn [published app]. unfold snapshotAt.
    rewrite seq_S, map_app. reflexivity.
  - reflexivity.
Qed.

Lemma vqe_loop_writes (n : nat) :
  forall i cd, forallb vqeWrites (snd (vqe_loop c random n i cd)) = true.
Proof.
  induction n as [|n IH]; intros i cd; [reflexivity|].
  rewrite vqe_loop_cons, forallb_app, IH, andb_true_r.
  cbn [vqe_body snd]. destruct (i mod 5 =? 0)%nat; reflexivity.
Qed.

Lemma vqe_body_0 :
  snd (vqe_body c (random 0%nat) 0 []) =
  [Await 100; SetProgress (INR 0 / INR totalIterations * 100);
   SetResults (snapshotAt c random 0)].
Proof. reflexivity. Qed.

Lemma nth_error_points (n i : nat) :
  (i < n)%nat ->
  nth_error (map (pointAt c random) (seq 0 n)) i = Some (pointAt c random i).
Proof.
  intros Hi. rewrite nth_error_map, nth_error_seq.
  destruct (Nat.ltb_spec i n); [reflexivity | lia].
Qed.

Lemma convergence_snapshotAt (k : nat) :
  List.length (convergence (snapshotAt c random k)) = S k.
Proof.
  unfold snapshotAt, snapshot. cbn [convergence].
  rewrite length_map, length_seq. reflexivity.
Qed.
End VqeLoop.

Lemma publishing_passes :
  filter publishes (seq 0 (S totalIterations)) = snapshotPasses.
Proof. vm_compute. reflexivity. Qed.

Lemma snapshot_pass_cases (i : nat) :
  (i <= totalIterations)%nat -> (i mod 5 = 0)%nat ->
  (i = 0 \/ i = 5 \/ i = 10 \/ i = 15 \/ i = 20 \/ i = 25 \/ i = 30 \/ i = 35
   \/ i = 40 \/ i = 45 \/ i = 50)%nat.
Proof.
  unfold totalIterations. intros Hi Hm.
  pose proof (Nat.div_mod_eq i 5) as H. rewrite Hm in H. lia.
Qed.

Lemma nth_error_snapshots {A : Type} (f : nat -> A) (i : nat) :
  (i <= totalIterations)%nat -> (i mod 5 = 0)%nat ->
  nth_error (map f snapshotPasses) (i / 5) = Some (f i).
Proof.
  intros Hi Hm.
  destruct (snapshot_pass_cases i Hi Hm) as
    [->|[->|[->|[->|[->|[->|[->|[->|[->|[->| ->]]]]]]]]]]; reflexivity.
Qed.

(** ** A run of [runVQE] *)

Lemma runVQE_published (s : AppState) (random : nat -> R) :
  published (runVQE s random) = map (snapshotAt (config s) random) snapshotPasses.
Proof.
  unfold runVQE. rewrite !published_app, vqe_loop_published, publishing_passes.
  cbn [runVQE_start published app]. rewrite app_nil_r. reflexivity.
Qed.

Lemma runVQE_publishedLengths (s : AppState) (random : nat -> R) :
  publishedLengths (runVQE s random)
  = [1; 6; 11; 16; 21; 26; 31; 36; 41; 46; 51]%nat.
Proof.
  unfold publishedLengths. rewrite runVQE_published, map_map.
  unfold snapshotPasses. cbn [map]. rewrite !convergence_snapshotAt. reflexivity.
Qed.

Lemma runVQE_results (s0 s : AppState) (random : nat -> R) :
  results (exec s (runVQE s0 random)) = Some (snapshotAt (config s0) random 50).
Proof. rewrite results_exec, runVQE_published. reflexivity. Qed.

Lemma runVQE_shown (s0 s : AppState) (random : nat -> R) :
  shownConvergence (exec s (runVQE s0 random)) =
  map (pointAt (config s0) random) (seq 0 (S totalIterations)).
Proof. unfold shownConvergence. rewrite runVQE_results. reflexivity. Qed.

Lemma runVQE_writes (s0 : AppState) (random : nat -> R) :
  forallb vqeWrites (runVQE s0 random) = true.
Proof.
  unfold runVQE. rewrite !forallb_app, vqe_loop_writes. reflexivity.
Qed.

Lemma runVQE_firstPass (s : AppState) (random : nat -> R) :
  exists rest, runVQE s random = firstPass (config s) random ++ rest.
Proof.
  exists (snd (vqe_loop (config s) random totalIterations 1
                 (fst (vqe_body (config s) (random 0%nat) 0 [])))
            ++ [SetIsRunning false]).
  unfold runVQE, firstPass. rewrite vqe_loop_cons, vqe_body_0.
  rewrite <- !app_assoc. reflexivity.
Qed.

Lemma convergenceData_after_length (s : AppState) (random : nat -> R) (k : nat) :
  List.length (convergenceData_after s random k) = k.
Proof.
  unfold convergenceData_after.
  rewrite vqe_loop_array, length_map, length_seq. reflexivity.
Qed.

Lemma convergenceData_after_S (s : AppState) (random : nat -> R) (k : nat) :
  convergenceData_after s random (S k) =
  convergenceData_after s random k ++ [pointAt (config s) random k].
Proof.
  unfold convergenceData_after.
  rewrite !vqe_loop_array, seq_S, map_app. reflexivity.
Qed.

Lemma noise_decay_jitter (i : nat) (rnd : R) :
  noise i rnd = decay i * jitter rnd.
Proof.
  unfold noise, decay, jitter.
  replace (- INR i * 0.1) with (-0.1 * INR i) by lra. ring.
Qed.

Lemma noise_abs_bound (i : nat) (rnd : R) :
  0 <= rnd < 1 -> Rabs (noise i rnd) <= 0.005 * exp (-0.1 * INR i).
Proof.
  intros Hr. rewrite noise_decay_jitter, Rabs_mult.
  unfold decay. rewrite (Rabs_pos_eq (exp _)) by (left; apply exp_pos).
  rewrite (Rmult_comm 0.005). apply Rmult_le_compat_l; [left; apply exp_pos|].
  apply Rabs_le. unfold jitter. lra.
Qed.

Example baseEnergy_H2 : baseEnergy (config initialState) = -1.13727.
Proof. reflexivity. Qed.

Example publishes_sample :
  map publishes [0; 1; 4; 5; 49; 50]%nat = [true; false; false; true; false; true].
Proof. reflexivity. Qed.

Example noise_midRandom (i : nat) : noise i (midRandom i) = 0.
Proof. unfold noise, midRandom. lra. Qed.

(** ** The energies and the snapshots of a run *)

(** C2.  At every counter [i] in 0..50 the run computes
    [reference + exp(-0.1 * i) * jitter], where the reference is -1.13727 for
    H2 and -7.8773 otherwise and the jitter is [0.01 * (random - 0.5)]: that
    is the [i]-th point of the sequence the finished run leaves in the stored
    result.  When the jitter is 0 the energy is the reference and the error
    expression [abs(energy - reference) * 1000] is 0. *)
Theorem energy_formula (s0 s : AppState) (random : nat -> R) (i : nat) :
  (i <= 50)%nat ->
  nth_error (shownConvergence (exec s (runVQE s0 random))) i
    = Some {| iteration := i;
              cp_energy := baseEnergy (config s0) + decay i * jitter (random i) |}
  /\ baseEnergy (config s0)
       = match molecule (config s0) with H2 => -1.13727 | LiH => -7.8773 end
  /\ (jitter (random i) = 0 ->
      baseEnergy (config s0) + noise i (random i) = baseEnergy (config s0)
      /\ Rabs (baseEnergy (config s0) + noise i (random i) - baseEnergy (config s0))
           * 1000 = 0).
Proof.
  intros Hi. split; [|split].
  - rewrite runVQE_shown, nth_error_points by (unfold totalIterations; lia).
    unfold pointAt. rewrite noise_decay_jitter. reflexivity.
  - reflexivity.
  - intros Hj. rewrite noise_decay_jitter, Hj, Rmult_0_r, Rplus_0_r.
    split; [reflexivity|].
    replace (baseEnergy (config s0) - baseEnergy (config s0)) with 0 by lra.
    rewrite Rabs_R0. lra.
Qed.

(** C2, witness: pass 7 of the first run, with no jitter. *)
Lemma energy_formula_pass7 :
  nth_error (shownConvergence (exec initialState (runVQE initialState midRandom))) 7
    = Some {| iteration := 7;
              cp_energy := baseEnergy (config initialState)
                           + decay 7 * jitter (midRandom 7%nat) |}
  /\ Rabs (baseEnergy (config initialState) + noise 7 (midRandom 7%nat)
           - baseEnergy (config initialState)) * 1000 = 0.
Proof.
  destruct (energy_formula initialState initialState midRandom 7) as [H1 [_ H3]].
  - lia.
  - split; [exact H1|]. apply H3. unfold jitter, midRandom. lra.
Defined.

(** C3.  A pass publishes a snapshot exactly when its counter is a multiple
    of 5; a run publishes 11 snapshots, those of passes 0, 5, ..., 50, whose
    [evaluations] are 1, 6, ..., 51; the run computes 51 points; the last
    snapshot, which is the stored result when the run ends, has
    [evaluations = 51] and carries the 51 points. *)
Theorem snapshot_schedule (s0 s : AppState) (random : nat -> R) :
  (forall i rnd cd,
      (exists v, In (SetResults v) (snd (vqe_body (config s0) rnd i cd)))
      <-> (i mod 5 = 0)%nat)
  /\ published (runVQE s0 random)
       = map (snapshotAt (config s0) random) snapshotPasses
  /\ map (fun v => evaluations (diagnostics v)) (published (runVQE s0 random))
       = [1; 6; 11; 16; 21; 26; 31; 36; 41; 46; 51]%nat
  /\ List.length (published (runVQE s0 random)) = 11%nat
  /\ List.length (convergenceData_after s0 random (S totalIterations)) = 51%nat
  /\ option_map (fun v => evaluations (diagnostics v))
       (results (exec s (runVQE s0 random))) = Some 51%nat
  /\ List.length (shownConvergence (exec s (runVQE s0 random))) = 51%nat.
Proof.
  split.
  { intros i rnd cd. cbn [vqe_body snd].
    destruct (Nat.eqb_spec (i mod 5) 0) as [Hm|Hm]; split.
    - intros _. exact Hm.
    - intros _. eexists. right. right. left. reflexivity.
    - intros [v [H|[H|[]]]]; discriminate H.
    - intros H. contradiction. }
  split; [apply runVQE_published|].
  split; [rewrite runVQE_published; reflexivity|].
  split; [rewrite runVQE_published; reflexivity|].
  split; [apply convergenceData_after_length|].
  split; [rewrite runVQE_results; reflexivity|].
  rewrite runVQE_shown, length_map, length_seq. reflexivity.
Qed.

(** C4.  The snapshot published by pass [i] has [evaluations = i + 1],
    [totalShots = 0] on the statevector backend and [shots * (i + 1)]
    otherwise, [qubits] and [pauliTerms] looked up from the molecule,
    [circuitDepth] looked up from the ansatz, and an [error] computed from the
    energy of that same snapshot, which is the energy of pass [i]; its
    sequence is the array as it stands after that pass. *)
Theorem snapshot_diagnostics (s0 : AppState) (random : nat -> R) :
  Forall2
    (fun i v =>
       evaluations (diagnostics v) = (i + 1)%nat
       /\ totalShots (diagnostics v)
            = (if String.eqb (backend (config s0)) "statevector" then 0
               else shots (config s0) * Z.of_nat (i + 1))%Z
       /\ qubits (diagnostics v)
            = match molecule (config s0) with H2 => 2 | LiH => 8 end%nat
       /\ pauliTerms (diagnostics v)
            = match molecule (config s0) with H2 => 5 | LiH => 24 end%nat
       /\ circuitDepth (diagnostics v)
            = (if String.eqb (ansatz (config s0)) "UCCSD" then 12 else 6)%nat
       /\ error (diagnostics v) = Rabs (energy v - baseEnergy (config s0)) * 1000
       /\ energy v = baseEnergy (config s0) + noise i (random i)
       /\ convergence v = convergenceData_after s0 random (S i))
    snapshotPasses (published (runVQE s0 random)).
Proof.
  rewrite runVQE_published. apply Forall2_map_r. intros i _.
  unfold convergenceData_after. rewrite vqe_loop_array.
  repeat split; reflexivity.
Qed.

(** In exact arithmetic, when the random value of pass [i] lies in [0, 1),
    the energy of pass [i] is within [0.005 * exp(-0.1 * i)] of the
    reference, and the [error] of the snapshot a publishing pass [i] builds
    is at most [5 * exp(-0.1 * i)] milli-Hartree. *)
Lemma noise_bound_exact (s0 s : AppState) (random : nat -> R) (i : nat) :
  (i <= 50)%nat ->
  0 <= random i < 1 ->
  (exists p,
      nth_error (shownConvergence (exec s (runVQE s0 random))) i = Some p
      /\ iteration p = i
      /\ Rabs (cp_energy p - baseEnergy (config s0)) <= 0.005 * exp (-0.1 * INR i))
  /\ ((i mod 5 = 0)%nat ->
      exists v,
        nth_error (published (runVQE s0 random)) (i / 5) = Some v
        /\ evaluations (diagnostics v) = (i + 1)%nat
        /\ error (diagnostics v) <= 5 * exp (-0.1 * INR i)).
Proof.
  intros Hi Hr.
  assert (Hb : Rabs (baseEnergy (config s0) + noise i (random i)
                     - baseEnergy (config s0))
               <= 0.005 * exp (-0.1 * INR i)).
  { replace (baseEnergy (config s0) + noise i (random i) - baseEnergy (config s0))
      with (noise i (random i)) by ring.
    apply noise_abs_bound. exact Hr. }
  split.
  - exists (pointAt (config s0) random i).
    rewrite runVQE_shown, nth_error_points by (unfold totalIterations; lia).
    repeat split. exact Hb.
  - intros Hm. exists (snapshotAt (config s0) random i).
    rewrite runVQE_published.
    rewrite nth_error_snapshots by (unfold totalIterations; lia).
    repeat split. unfold snapshotAt, snapshot. cbn [diagnostics error]. lra.
Qed.

(** ** The stored result along a run *)

Lemma shownLength_apply (s : AppState) (e : Effect) :
  shownLength (apply s e) =
  match e with
  | SetResults v => List.length (convergence v)
  | _ => shownLength s
  end.
Proof. destruct e; reflexivity. Qed.

Lemma publishedLengths_cons (e : Effect) (es : list Effect) :
  publishedLengths (e :: es) =
  match e with
  | SetResults v => List.length (convergence v) :: publishedLengths es
  | _ => publishedLengths es
  end.
Proof. destruct e; reflexivity. Qed.

Lemma sorted_after_apply (s : AppState) (e : Effect) (es : list Effect) :
  StronglySorted le (shownLength s :: publishedLengths (e :: es)) ->
  (shownLength s <= shownLength (apply s e))%nat
  /\ StronglySorted le (shownLength (apply s e) :: publishedLengths es).
Proof.
  rewrite shownLength_apply, publishedLengths_cons.
  destruct e; intros H; try (split; [apply Nat.le_refl | exact H]).
  inversion H as [|x l Hl Hall]; subst. inversion Hall; subst.
  split; assumption.
Qed.

Lemma shownLength_lower_bound (es : list Effect) :
  forall s,
    StronglySorted le (shownLength s :: publishedLengths es) ->
    Forall (le (shownLength s)) (map shownLength (states s es)).
Proof.
  induction es as [|e es IH]; intros s Hs; cbn [states map].
  - repeat constructor.
  - constructor; [apply Nat.le_refl|].
    destruct (sorted_after_apply s e es Hs) as [Hle Hs'].
    eapply Forall_impl; [|exact (IH _ Hs')].
    intros n Hn. cbn beta in Hn. lia.
Qed.

(** When the lengths published are sorted and start no lower than the
    length shown, the length shown never decreases. *)
Lemma shownLength_sorted (es : list Effect) :
  forall s,
    StronglySorted le (shownLength s :: publishedLengths es) ->
    StronglySorted le (map shownLength (states s es)).
Proof.
  induction es as [|e es IH]; intros s Hs.
  - repeat constructor.
  - pose proof (shownLength_lower_bound (e :: es) s Hs) as Hb.
    cbn [states map] in *. inversion Hb as [|x l _ Hl]; subst.
    constructor; [|exact Hl].
    apply IH. apply (sorted_after_apply s e es Hs).
Qed.

Lemma sorted_states_prefix (f : AppState -> nat) (es1 es2 : list Effect)
    (s : AppState) :
  StronglySorted le (map f (states s (es1 ++ es2))) ->
  (f s <= f (exec s es1))%nat.
Proof.
  destruct es1 as [|e es1]; intros Hs; [apply Nat.le_refl|].
  cbn [app states map] in Hs. inversion Hs as [|x l _ Hall]; subst.
  rewrite Forall_forall in Hall. apply Hall.
  apply in_map. apply (states_app_in es1 es2 (apply s e)).
Qed.

Lemma shownLength_afterFirstRun : shownLength afterFirstRun = 51%nat.
Proof.
  unfold shownLength, shownConvergence, afterFirstRun.
  rewrite runVQE_results. apply convergence_snapshotAt.
Qed.

Lemma shownLength_restarted :
  shownLength (exec afterFirstRun runVQE_start) = 51%nat.
Proof.
  unfold shownLength, shownConvergence. rewrite results_exec.
  cbn [runVQE_start published rev]. exact shownLength_afterFirstRun.
Qed.

Lemma shownLength_firstPass (s : AppState) (c : MoleculeConfig)
    (random : nat -> R) :
  shownLength (exec s (firstPass c random)) = 1%nat.
Proof.
  unfold shownLength, shownConvergence. rewrite results_exec.
  cbn [firstPass runVQE_start app published rev]. apply convergence_snapshotAt.
Qed.

Lemma first_run_invariant (s : AppState) (random : nat -> R) :
  results s = None -> shownSequenceInvariant s random.
Proof.
  intros Hnone. split.
  - apply shownLength_sorted. rewrite runVQE_publishedLengths.
    unfold shownLength, shownConvergence. rewrite Hnone. cbn [List.length].
    sorted_nat.
  - unfold emptyAtStart, shownConvergence. rewrite results_exec.
    cbn [runVQE_start published rev]. rewrite Hnone. reflexivity.
Qed.

(** C1 (as the code has it).  In every run the local array starts empty and
    gains exactly one point per pass, so its length never decreases, and the
    snapshots the run publishes carry sequences of lengths 1, 6, ..., 51.
    The stored result is not cleared when a run starts: the statements before
    the loop leave it as it was.  When no result was stored before the run,
    the shown sequence is empty on entering the loop and its length never
    decreases along the run. *)
Theorem convergence_sequence_within_run (s : AppState) (random : nat -> R) :
  convergenceData_after s random 0 = []
  /\ (forall k, convergenceData_after s random (S k) =
                convergenceData_after s random k ++ [pointAt (config s) random k])
  /\ (forall k, List.length (convergenceData_after s random k) = k)
  /\ publishedLengths (runVQE s random)
       = [1; 6; 11; 16; 21; 26; 31; 36; 41; 46; 51]%nat
  /\ StronglySorted le (publishedLengths (runVQE s random))
  /\ results (exec s runVQE_start) = results s
  /\ (results s = None -> shownSequenceInvariant s random).
Proof.
  split; [reflexivity|].
  split; [apply convergenceData_after_S|].
  split; [apply convergenceData_after_length|].
  split; [apply runVQE_publishedLengths|].
  split; [rewrite runVQE_publishedLengths; sorted_nat|].
  split; [reflexivity|].
  apply first_run_invariant.
Qed.

(** C1, witness: the first run from the initial state of the component. *)
Lemma convergence_sequence_within_run_first :
  shownSequenceInvariant initialState midRandom.
Proof.
  apply (convergence_sequence_within_run initialState midRandom).
  reflexivity.
Defined.

(** C1, counterexample: when a second run starts after a completed one, the
    shown sequence still has the 51 points of the first run, and its length
    drops to 1 when the snapshot of pass 0 is published. *)
Lemma stored_result_survives_restart :
  ~ shownSequenceInvariant afterFirstRun midRandom
  /\ ~ emptyAtStart afterFirstRun
  /\ ~ monotoneWithinRun afterFirstRun midRandom.
Proof.
  assert (Hempty : ~ emptyAtStart afterFirstRun).
  { unfold emptyAtStart. intros H.
    pose proof shownLength_restarted as Hlen.
    unfold shownLength in Hlen. rewrite H in Hlen. discriminate Hlen. }
  assert (Hmono : ~ monotoneWithinRun afterFirstRun midRandom).
  { unfold monotoneWithinRun. intros H.
    destruct (runVQE_firstPass afterFirstRun midRandom) as [rest Hrun].
    rewrite Hrun in H. apply sorted_states_prefix in H.
    rewrite shownLength_firstPass, shownLength_afterFirstRun in H. lia. }
  split; [|split; assumption].
  intros [_ H]. exact (Hempty H).
Qed.

(** ** The loop of [generateDissociationCurve] *)

(** The first pass of a loop of [n + 1] passes of the curve generator. *)
Lemma curve_loop_cons (n i : nat) (cd : list DissociationPoint) :
  curve_loop (S n) i cd =
  (fst (curve_loop n (S i) (fst (curve_body i cd))),
   snd (curve_body i cd) ++ snd (curve_loop n (S i) (fst (curve_body i cd)))).
Proof.
  cbn [curve_loop]. destruct (curve_body i cd) as [cd1 es1].
  cbn [fst snd]. destruct (curve_loop n (S i) cd1). reflexivity.
Qed.

Lemma curve_loop_writes (n : nat) :
  forall i cd,
    forallb curveWrites (snd (curve_loop n i cd)) = true
    /\ curves (snd (curve_loop n i cd)) = [].
Proof.
  induction n as [|n IH]; intros i cd; [split; reflexivity|].
  rewrite curve_loop_cons. cbn [snd].
  rewrite forallb_app, curves_app.
  destruct (IH (S i) (fst (curve_body i cd))) as [-> ->].
  split; reflexivity.
Qed.

Lemma curve_loop_array (n : nat) :
  forall i cd,
    fst (curve_loop n i cd) =
    cd ++ map (fun k => {| r := nth k bondLengths 0;
                           dp_energy := morse (nth k bondLengths 0) |})
              (seq i n).
Proof.
  induction n as [|n IH]; intros i cd.
  - cbn [curve_loop fst seq map]. rewrite app_nil_r. reflexivity.
  - rewrite curve_loop_cons. cbn [fst]. rewrite IH.
    cbn [curve_body fst seq map]. rewrite <- app_assoc. reflexivity.
Qed.

Lemma generateDissociationCurve_eq (s0 : AppState) :
  generateDissociationCurve s0 =
  [SetIsRunning true]
    ++ snd (curve_loop (List.length bondLengths) 0 [])
    ++ [SetDissociationData (fst (curve_loop (List.length bondLengths) 0 []));
        SetIsRunning false].
Proof.
  unfold generateDissociationCurve.
  destruct (curve_loop (List.length bondLengths) 0 []). reflexivity.
Qed.

Lemma generateDissociationCurve_writes (s0 : AppState) :
  forallb curveWrites (generateDissociationCurve s0) = true.
Proof.
  rewrite generateDissociationCurve_eq, !forallb_app.
  rewrite (proj1 (curve_loop_writes _ _ _)). reflexivity.
Qed.

(** ** What each generator writes *)

Lemma vqeWrites_frame (s : AppState) (e : Effect) :
  vqeWrites e = true ->
  dissociationData (apply s e) = dissociationData s
  /\ config (apply s e) = config s.
Proof. destruct e; intros H; try discriminate H; split; reflexivity. Qed.

Lemma curveWrites_frame (s : AppState) (e : Effect) :
  curveWrites e = true ->
  results (apply s e) = results s /\ config (apply s e) = config s.
Proof. destruct e; intros H; try discriminate H; split; reflexivity. Qed.

(** C10.  Every effect of a run of the convergence simulator is a write of
    the running flag, the progress or the result, or a wait; every effect of
    a run of the curve generator is a write of the running flag, the progress
    or the dissociation sequence, or a wait.  So along a run of the simulator
    the dissociation sequence stays what it was, and along a run of the curve
    generator the stored result stays what it was. *)
Theorem generators_frame (s0 s : AppState) (random : nat -> R) :
  forallb vqeWrites (runVQE s0 random) = true
  /\ forallb curveWrites (generateDissociationCurve s0) = true
  /\ Forall (fun s' => dissociationData s' = dissociationData s)
            (states s (runVQE s0 random))
  /\ Forall (fun s' => results s' = results s)
            (states s (generateDissociationCurve s0))
  /\ dissociationData (exec s (runVQE s0 random)) = dissociationData s
  /\ results (exec s (generateDissociationCurve s0)) = results s.
Proof.
  pose proof (runVQE_writes s0 random) as Hv.
  pose proof (generateDissociationCurve_writes s0) as Hc.
  assert (Hd : Forall (fun s' => dissociationData s' = dissociationData s)
                      (states s (runVQE s0 random))).
  { apply states_invariant; [|reflexivity].
    intros s' e Hin Hs'. rewrite forallb_forall in Hv.
    rewrite (proj1 (vqeWrites_frame s' e (Hv e Hin))). exact Hs'. }
  assert (Hr : Forall (fun s' => results s' = results s)
                      (states s (generateDissociationCurve s0))).
  { apply states_invariant; [|reflexivity].
    intros s' e Hin Hs'. rewrite forallb_forall in Hc.
    rewrite (proj1 (curveWrites_frame s' e (Hc e Hin))). exact Hs'. }
  split; [exact Hv|]. split; [exact Hc|].
  split; [exact Hd|]. split; [exact Hr|]. split.
  - apply (states_Forall_exec _ _ _ Hd).
  - apply (states_Forall_exec _ _ _ Hr).
Qed.

(** ** The dissociation curve *)

Lemma bondLengths_length : List.length bondLengths = 15%nat.
Proof. unfold bondLengths. rewrite length_map, length_seq. reflexivity. Qed.

Lemma bondLengths_nth (k : nat) :
  (k < 15)%nat -> nth k bondLengths 0 = 0.40 + 0.15 * INR k.
Proof.
  intros Hk. apply nth_error_nth. unfold bondLengths.
  rewrite nth_error_map, nth_error_seq.
  destruct (Nat.ltb_spec k 15); [|lia].
  cbn [option_map Nat.add]. f_equal. lra.
Qed.

Lemma curve_loop_waits (n : nat) :
  forall i cd, List.length (filter isAwait (snd (curve_loop n i cd))) = n.
Proof.
  induction n as [|n IH]; intros i cd; [reflexivity|].
  rewrite curve_loop_cons. cbn [snd]. rewrite filter_app, length_app, IH.
  reflexivity.
Qed.

Lemma morse_formula (x : R) :
  morse x = -1.13727 + 0.4556 * (1 - exp (-1.44 * (x - 0.74))) ^ 2 - 0.4556.
Proof.
  unfold morse, D, a, re.
  replace (- (1.44) * (x - 0.74)) with (-1.44 * (x - 0.74)) by lra.
  reflexivity.
Qed.

Lemma curve_points :
  fst (curve_loop (List.length bondLengths) 0 []) = map morsePoint (seq 0 15).
Proof.
  rewrite curve_loop_array, bondLengths_length. cbn [app].
  apply map_ext_in. intros k Hk. apply in_seq in Hk.
  rewrite bondLengths_nth by lia. rewrite morse_formula. reflexivity.
Qed.

(** C5.  A run of the curve generator hands [setDissociationData] one
    sequence, once: the 15 points at [r = 0.40 + 0.15 * k], [k = 0..14]
    (from 0.40 to 2.50), each with the Morse-shaped energy of constants
    0.4556, 1.44 and 0.74.  That call comes after the 15 waits of the loop,
    and nothing is handed over before it.  The effects do not depend on the
    component state, so not on the configured molecule.  At [r = 0.74] the
    formula gives -1.59287. *)
Theorem dissociation_curve (s0 s : AppState) :
  curves (generateDissociationCurve s0) = [map morsePoint (seq 0 15)]
  /\ (exists pre,
        generateDissociationCurve s0
          = pre ++ [SetDissociationData (map morsePoint (seq 0 15));
                    SetIsRunning false]
        /\ curves pre = []
        /\ List.length (filter isAwait pre) = 15%nat)
  /\ dissociationData (exec s (generateDissociationCurve s0))
       = map morsePoint (seq 0 15)
  /\ List.length (map morsePoint (seq 0 15)) = 15%nat
  /\ r (morsePoint 0) = 0.40
  /\ r (morsePoint 14) = 2.50
  /\ (forall x, morse x
                = -1.13727 + 0.4556 * (1 - exp (-1.44 * (x - 0.74))) ^ 2 - 0.4556)
  /\ morse re = -1.59287
  /\ (forall s1, generateDissociationCurve s1 = generateDissociationCurve s0).
Proof.
  assert (Heq : generateDissociationCurve s0
                = ([SetIsRunning true]
                     ++ snd (curve_loop (List.length bondLengths) 0 []))
                    ++ [SetDissociationData (map morsePoint (seq 0 15));
                        SetIsRunning false]).
  { rewrite generateDissociationCurve_eq, curve_points, <- app_assoc.
    reflexivity. }
  assert (Hpre : curves ([SetIsRunning true]
                           ++ snd (curve_loop (List.length bondLengths) 0 []))
                 = []).
  { rewrite curves_app, (proj2 (curve_loop_writes _ _ _)). reflexivity. }
  split.
  { rewrite Heq, curves_app, Hpre. reflexivity. }
  split.
  { eexists. split; [exact Heq|]. split; [exact Hpre|].
    rewrite filter_app, length_app, curve_loop_waits, bondLengths_length.
    reflexivity. }
  split.
  { rewrite Heq, exec_app. reflexivity. }
  split; [rewrite length_map, length_seq; reflexivity|].
  split; [cbn [morsePoint r INR]; lra|].
  split; [cbn [morsePoint r]; simpl INR; lra|].
  split; [exact morse_formula|].
  split.
  { rewrite morse_formula. unfold re.
    replace (-1.44 * (0.74 - 0.74)) with 0 by lra.
    rewrite exp_0. lra. }
  intros s1. reflexivity.
Qed.

(** ** Export *)



(** ** Derived metrics *)

Lemma chemicalAccuracy_spec (err : R) :
  chemicalAccuracy err = true <-> err < 1.6.
Proof.
  unfold chemicalAccuracy. destruct (Rlt_dec err 1.6); split; intros H;
    try reflexivity; try assumption; try discriminate H; contradiction.
Qed.

(** C7.  The classifier answers "achieved" exactly when the error is
    strictly below 1.6: it does for every error below 1.6, 1.5999 among them,
    and does not for any error of 1.6 or more, 1.6 among them.  The label of
    the analysis panel and the mark of the results table follow it. *)
Theorem chemical_accuracy_threshold :
  (forall err, chemicalAccuracy err = true <-> err < 1.6)
  /\ (forall err, err < 1.6 -> chemicalAccuracy err = true)
  /\ (forall err, err >= 1.6 -> chemicalAccuracy err = false)
  /\ chemicalAccuracy 1.5999 = true
  /\ chemicalAccuracy 1.6 = false
  /\ (forall v, accuracyLabel v = "✓ Achieved"%string
                <-> error (diagnostics v) < 1.6)
  /\ (forall v, accuracyMark v = "✓"%string <-> error (diagnostics v) < 1.6).
Proof.
  assert (Hno : forall err, err >= 1.6 -> chemicalAccuracy err = false).
  { intros err H. destruct (chemicalAccuracy err) eqn:E; [|reflexivity].
    apply chemicalAccuracy_spec in E. lra. }
  split; [exact chemicalAccuracy_spec|].
  split; [intros err H; apply chemicalAccuracy_spec; exact H|].
  split; [exact Hno|].
  split; [apply chemicalAccuracy_spec; lra|].
  split; [apply Hno; lra|].
  split; intros v; rewrite <- chemicalAccuracy_spec;
    [unfold accuracyLabel | unfold accuracyMark];
    destruct (chemicalAccuracy (error (diagnostics v))); split; intros H;
    try reflexivity; discriminate H.
Qed.

(** In exact arithmetic the value shown in electronvolts is the energy in
    Hartree times 27.2114, and dividing it by 27.2114 gives the energy
    back. *)
Lemma hartree_round_trip_exact (e : R) :
  hartreeToEV e = e * 27.2114 /\ hartreeToEV e / 27.2114 = e.
Proof. unfold hartreeToEV. split; [reflexivity | lra]. Qed.

(** * Further properties of the generators and of what is rendered *)

(** ** Progress and the running flag *)

Lemma progressWrites_app (es1 es2 : list Effect) :
  progressWrites (es1 ++ es2) = progressWrites es1 ++ progressWrites es2.
Proof.
  induction es1 as [|e es1 IH]; simpl; [reflexivity|].
  destruct e; simpl; rewrite IH; reflexivity.
Qed.

Lemma runningWrites_app (es1 es2 : list Effect) :
  runningWrites (es1 ++ es2) = runningWrites es1 ++ runningWrites es2.
Proof.
  induction es1 as [|e es1 IH]; simpl; [reflexivity|].
  destruct e; simpl; rewrite IH; reflexivity.
Qed.

(** The progress after a list of effects is the last one written, or the
    one before when none is. *)
Lemma progress_exec (es : list Effect) :
  forall s,
    progress (exec s es) =
    match rev (progressWrites es) with
    | p :: _ => p
    | [] => progress s
    end.
Proof.
  induction es as [|e es IH]; intros s; [reflexivity|].
  change (exec s (e :: es)) with (exec (apply s e) es). rewrite IH.
  destruct e; cbn [progressWrites apply progress]; try reflexivity.
  cbn [rev]. destruct (rev (progressWrites es)); reflexivity.
Qed.

Lemma isRunning_exec (es : list Effect) :
  forall s,
    isRunning (exec s es) =
    match rev (runningWrites es) with
    | b :: _ => b
    | [] => isRunning s
    end.
Proof.
  induction es as [|e es IH]; intros s; [reflexivity|].
  change (exec s (e :: es)) with (exec (apply s e) es). rewrite IH.
  destruct e; cbn [runningWrites apply isRunning]; try reflexivity.
  cbn [rev]. destruct (rev (runningWrites es)); reflexivity.
Qed.

(** No effect writes the configuration. *)
Lemma config_exec (es : list Effect) :
  forall s, config (exec s es) = config s.
Proof.
  induction es as [|e es IH]; intros s; [reflexivity|].
  change (exec s (e :: es)) with (exec (apply s e) es). rewrite IH.
  destruct e; reflexivity.
Qed.

Lemma dissociationData_exec (es : list Effect) :
  forall s,
    dissociationData (exec s es) =
    match rev (curves es) with
    | d :: _ => d
    | [] => dissociationData s
    end.
Proof.
  induction es as [|e es IH]; intros s; [reflexivity|].
  change (exec s (e :: es)) with (exec (apply s e) es). rewrite IH.
  destruct e; cbn [curves apply dissociationData]; try reflexivity.
  cbn [rev]. destruct (rev (curves es)); reflexivity.
Qed.

Lemma vqe_loop_progress (c : MoleculeConfig) (random : nat -> R) (n : nat) :
  forall i cd,
    progressWrites (snd (vqe_loop c random n i cd)) =
    map (fun k => INR k / INR totalIterations * 100) (seq i n).
Proof.
  induction n as [|n IH]; intros i cd; [reflexivity|].
  rewrite vqe_loop_cons, progressWrites_app, IH.
  cbn [vqe_body snd seq map]. destruct (i mod 5 =? 0)%nat; reflexivity.
Qed.

Lemma vqe_loop_keepsRunning (c : MoleculeConfig) (random : nat -> R) (n : nat) :
  forall i cd, forallb keepsRunning (snd (vqe_loop c random n i cd)) = true.
Proof.
  induction n as [|n IH]; intros i cd; [reflexivity|].
  rewrite vqe_loop_cons, forallb_app, IH, andb_true_r.
  cbn [vqe_body snd]. destruct (i mod 5 =? 0)%nat; reflexivity.
Qed.

Lemma vqe_loop_curves (c : MoleculeConfig) (random : nat -> R) (n : nat) :
  forall i cd, curves (snd (vqe_loop c random n i cd)) = [].
Proof.
  induction n as [|n IH]; intros i cd; [reflexivity|].
  rewrite vqe_loop_cons, curves_app, IH, app_nil_r.
  cbn [vqe_body snd]. destruct (i mod 5 =? 0)%nat; reflexivity.
Qed.

Lemma curve_loop_progress (n : nat) :
  forall i cd,
    progressWrites (snd (curve_loop n i cd)) =
    map (fun k => INR k / INR (List.length bondLengths) * 100) (seq i n).
Proof.
  induction n as [|n IH]; intros i cd; [reflexivity|].
  rewrite curve_loop_cons. cbn [snd]. rewrite progressWrites_app, IH.
  reflexivity.
Qed.

Lemma curve_loop_quiet (n : nat) :
  forall i cd,
    forallb keepsRunning (snd (curve_loop n i cd)) = true
    /\ published (snd (curve_loop n i cd)) = [].
Proof.
  induction n as [|n IH]; intros i cd; [split; reflexivity|].
  rewrite curve_loop_cons. cbn [snd].
  rewrite forallb_app, published_app.
  destruct (IH (S i) (fst (curve_body i cd))) as [-> ->].
  split; reflexivity.
Qed.

Lemma percent_of_pass (k : nat) : INR k / INR totalIterations * 100 = 2 * INR k.
Proof. unfold totalIterations. simpl INR. lra. Qed.

Lemma sorted_map_seq (f : nat -> R) (n : nat) :
  (forall j k, (j <= k)%nat -> f j <= f k) ->
  forall i, StronglySorted Rle (map f (seq i n)).
Proof.
  intros Hf. induction n as [|n IH]; intros i; cbn [seq map]; constructor.
  - apply IH.
  - apply Forall_forall. intros x Hx. apply in_map_iff in Hx.
    destruct Hx as [k [<- Hk]]. apply in_seq in Hk. apply Hf. lia.
Qed.

Lemma rev_map_seq_S {A : Type} (f : nat -> A) (n : nat) :
  rev (map f (seq 0 (S n))) = f n :: rev (map f (seq 0 n)).
Proof. rewrite seq_S, map_app, rev_app_distr. reflexivity. Qed.

Lemma runVQE_progressWrites (s0 : AppState) (random : nat -> R) :
  progressWrites (runVQE s0 random)
  = 0 :: map (fun k => 2 * INR k) (seq 0 (S totalIterations)).
Proof.
  unfold runVQE. rewrite !progressWrites_app, vqe_loop_progress.
  cbn [runVQE_start progressWrites app]. rewrite app_nil_r. f_equal.
  apply map_ext. exact percent_of_pass.
Qed.

(** X1.  The values a run of [runVQE] hands to [setProgress] are 0 and then
    [2 * i] for i = 0..50: they never decrease, stay between 0 and 100, and
    the progress is 100 when the run ends, whatever it was before. *)
Theorem runVQE_progress (s0 s : AppState) (random : nat -> R) :
  progressWrites (runVQE s0 random)
    = 0 :: map (fun k => 2 * INR k) (seq 0 (S totalIterations))
  /\ StronglySorted Rle (progressWrites (runVQE s0 random))
  /\ Forall (fun p => 0 <= p <= 100) (progressWrites (runVQE s0 random))
  /\ progress (exec s (runVQE s0 random)) = 100.
Proof.
  split; [apply runVQE_progressWrites|].
  split; [|split].
  - rewrite runVQE_progressWrites. constructor.
    + apply sorted_map_seq. intros j k Hjk. apply le_INR in Hjk. lra.
    + apply Forall_forall. intros x Hx. apply in_map_iff in Hx.
      destruct Hx as [k [<- _]]. pose proof (pos_INR k). lra.
  - rewrite runVQE_progressWrites. constructor; [lra|].
    apply Forall_forall. intros x Hx. apply in_map_iff in Hx.
    destruct Hx as [k [<- Hk]]. apply in_seq in Hk.
    pose proof (pos_INR k) as H0.
    assert (Hle : (k <= 50)%nat) by (unfold totalIterations in Hk; lia).
    apply le_INR in Hle. simpl INR in Hle. lra.
  - rewrite progress_exec, runVQE_progressWrites.
    cbn [rev]. rewrite rev_map_seq_S. cbn [app].
    unfold totalIterations. simpl INR. lra.
Qed.

Lemma generateDissociationCurve_progressWrites (s0 : AppState) :
  progressWrites (generateDissociationCurve s0)
  = map (fun k => INR k / 15 * 100) (seq 0 15).
Proof.
  rewrite generateDissociationCurve_eq, !progressWrites_app, curve_loop_progress.
  rewrite bondLengths_length. cbn [progressWrites app]. rewrite app_nil_r.
  apply map_ext. intros k. simpl INR. lra.
Qed.

(** X2.  The values a run of [generateDissociationCurve] hands to
    [setProgress] are [100 * i / 15] for i = 0..14: all below 100, and the
    progress is [280 / 3] (93.3) when the run ends, never 100.  The
    run starts with [setIsRunning(true)] and a wait, without a write of the
    progress: during that first wait the progress is the one left before. *)
Theorem curve_progress (s0 s : AppState) :
  progressWrites (generateDissociationCurve s0)
    = map (fun k => INR k / 15 * 100) (seq 0 15)
  /\ Forall (fun p => 0 <= p < 100) (progressWrites (generateDissociationCurve s0))
  /\ progress (exec s (generateDissociationCurve s0)) = 280 / 3
  /\ (exists rest,
        generateDissociationCurve s0 = [SetIsRunning true; Await 200] ++ rest
        /\ progress (exec s [SetIsRunning true; Await 200]) = progress s).
Proof.
  split; [apply generateDissociationCurve_progressWrites|].
  split; [|split].
  - rewrite generateDissociationCurve_progressWrites.
    apply Forall_forall. intros x Hx. apply in_map_iff in Hx.
    destruct Hx as [k [<- Hk]]. apply in_seq in Hk.
    pose proof (pos_INR k) as H0.
    assert (Hle : (k <= 14)%nat) by lia.
    apply le_INR in Hle. simpl INR in Hle. lra.
  - rewrite progress_exec, generateDissociationCurve_progressWrites.
    rewrite rev_map_seq_S. simpl INR. lra.
  - rewrite generateDissociationCurve_eq, bondLengths_length.
    rewrite curve_loop_cons. cbn [curve_body snd app].
    eexists. split; reflexivity.
Qed.

Lemma runVQE_shape (s0 : AppState) (random : nat -> R) :
  runVQE s0 random
  = SetIsRunning true :: runVQE_inner s0 random ++ [SetIsRunning false].
Proof. reflexivity. Qed.

Lemma generateDissociationCurve_shape (s0 : AppState) :
  generateDissociationCurve s0
  = SetIsRunning true :: curve_inner ++ [SetIsRunning false].
Proof.
  rewrite generateDissociationCurve_eq. unfold curve_inner.
  cbn [app]. rewrite <- app_assoc. reflexivity.
Qed.

Lemma runVQE_inner_keepsRunning (s0 : AppState) (random : nat -> R) :
  forallb keepsRunning (runVQE_inner s0 random) = true.
Proof. unfold runVQE_inner. cbn [forallb keepsRunning andb]. apply vqe_loop_keepsRunning. Qed.

Lemma curve_inner_keepsRunning : forallb keepsRunning curve_inner = true.
Proof.
  unfold curve_inner. rewrite forallb_app, (proj1 (curve_loop_quiet _ _ _)).
  reflexivity.
Qed.

Lemma keepsRunning_states (mid : list Effect) (s : AppState) :
  forallb keepsRunning mid = true ->
  Forall (fun s' => isRunning s' = isRunning s) (states s mid).
Proof.
  intros Hmid. apply states_invariant; [|reflexivity].
  intros s' e Hin Hs'. rewrite forallb_forall in Hmid.
  specialize (Hmid e Hin). rewrite <- Hs'.
  destruct e; try reflexivity. discriminate Hmid.
Qed.

(** Between its two writes of the flag, a run keeps it set. *)
Lemma running_inside (mid : list Effect) (s : AppState) :
  forallb keepsRunning mid = true ->
  Forall (fun s' => isRunning s' = true)
         (states (apply s (SetIsRunning true)) mid)
  /\ isRunning (exec s (SetIsRunning true :: mid ++ [SetIsRunning false])) = false.
Proof.
  intros Hmid. split.
  - exact (keepsRunning_states mid (apply s (SetIsRunning true)) Hmid).
  - rewrite isRunning_exec. cbn [runningWrites].
    rewrite runningWrites_app. cbn [runningWrites rev].
    rewrite rev_app_distr. reflexivity.
Qed.

(** X3.  Each generator sets the running flag first and clears it last, and
    writes it nowhere in between: in every state from the first write to the
    last effect before the final one the two triggers are disabled, and they
    are enabled again when the run has ended. *)
Theorem triggers_disabled_during_run (s0 s : AppState) (random : nat -> R) :
  runVQE s0 random
    = SetIsRunning true :: runVQE_inner s0 random ++ [SetIsRunning false]
  /\ Forall (fun s' => triggersDisabled s' = true)
            (states (apply s (SetIsRunning true)) (runVQE_inner s0 random))
  /\ triggersDisabled (exec s (runVQE s0 random)) = false
  /\ generateDissociationCurve s0
       = SetIsRunning true :: curve_inner ++ [SetIsRunning false]
  /\ Forall (fun s' => triggersDisabled s' = true)
            (states (apply s (SetIsRunning true)) curve_inner)
  /\ triggersDisabled (exec s (generateDissociationCurve s0)) = false.
Proof.
  destruct (running_inside _ s (runVQE_inner_keepsRunning s0 random)) as [Hv Hv'].
  destruct (running_inside _ s curve_inner_keepsRunning) as [Hc Hc'].
  split; [apply runVQE_shape|]. split; [exact Hv|].
  split; [rewrite runVQE_shape; exact Hv'|].
  split; [apply generateDissociationCurve_shape|]. split; [exact Hc|].
  rewrite generateDissociationCurve_shape. exact Hc'.
Qed.

Lemma generateDissociationCurve_published (s0 : AppState) :
  published (generateDissociationCurve s0) = [].
Proof.
  rewrite generateDissociationCurve_eq, !published_app.
  rewrite (proj2 (curve_loop_quiet _ _ _)). reflexivity.
Qed.

Lemma generateDissociationCurve_results (s0 s : AppState) :
  results (exec s (generateDissociationCurve s0)) = results s.
Proof. rewrite results_exec, generateDissociationCurve_published. reflexivity. Qed.

Lemma generateDissociationCurve_data (s0 s : AppState) :
  dissociationData (exec s (generateDissociationCurve s0))
  = map morsePoint (seq 0 15).
Proof.
  rewrite dissociationData_exec, generateDissociationCurve_eq, !curves_app.
  rewrite (proj2 (curve_loop_writes _ _ _)), curve_points. reflexivity.
Qed.

Lemma runVQE_data (s0 s : AppState) (random : nat -> R) :
  dissociationData (exec s (runVQE s0 random)) = dissociationData s.
Proof.
  rewrite dissociationData_exec. unfold runVQE.
  rewrite !curves_app, vqe_loop_curves. reflexivity.
Qed.

(** X4.  The status badge reads "Computing..." in every state inside a run
    of either generator.  After a run of [runVQE] it reads "Complete".  After
    a run of [generateDissociationCurve] it reads what the stored result
    decides: "Ready" when there is none, although a curve was computed. *)
Theorem status_badge_along_runs (s0 s : AppState) (random : nat -> R) :
  Forall (fun s' => statusBadge s' = "Computing..."%string)
         (states (apply s (SetIsRunning true)) (runVQE_inner s0 random))
  /\ Forall (fun s' => statusBadge s' = "Computing..."%string)
            (states (apply s (SetIsRunning true)) curve_inner)
  /\ statusBadge (exec s (runVQE s0 random)) = "Complete"%string
  /\ statusBadge (exec s (generateDissociationCurve s0))
       = match results s with
         | Some _ => "Complete"%string
         | None => "Ready"%string
         end.
Proof.
  destruct (running_inside _ s (runVQE_inner_keepsRunning s0 random)) as [Hv Hv'].
  destruct (running_inside _ s curve_inner_keepsRunning) as [Hc Hc'].
  assert (Hbadge : forall s', isRunning s' = true ->
                              statusBadge s' = "Computing..."%string).
  { intros s' H. unfold statusBadge. rewrite H. reflexivity. }
  split; [eapply Forall_impl; [exact Hbadge | exact Hv]|].
  split; [eapply Forall_impl; [exact Hbadge | exact Hc]|].
  rewrite <- (runVQE_shape s0 random) in Hv'.
  rewrite <- (generateDissociationCurve_shape s0) in Hc'.
  split.
  - unfold statusBadge. rewrite Hv', runVQE_results. reflexivity.
  - unfold statusBadge. rewrite Hc', generateDissociationCurve_results.
    reflexivity.
Qed.

(** ** Export along the runs *)

(** X5.  After a run of each generator, in either order, [exportResults]
    performs one download: the serialization of the configuration as it was,
    the snapshot of pass 50 and the 15 points of the curve.  Exporting
    changes nothing of the state. *)
Theorem export_after_both_runs (JSON_stringify : ExportData -> nat -> string)
    (Number_toString : R -> string) (s0 s : AppState) (random : nat -> R) :
  exportResults JSON_stringify Number_toString
      (exec (exec s (runVQE s0 random)) (generateDissociationCurve s0))
    = [Download (exportName Number_toString (config s)) "application/json"
         (JSON_stringify
            {| configuration := config s;
               exp_results := Some (snapshotAt (config s0) random 50);
               dissociation := map morsePoint (seq 0 15) |} 2%nat)]
  /\ exportResults JSON_stringify Number_toString
       (exec (exec s (generateDissociationCurve s0)) (runVQE s0 random))
     = exportResults JSON_stringify Number_toString
         (exec (exec s (runVQE s0 random)) (generateDissociationCurve s0))
  /\ (forall s', exec s' (exportResults JSON_stringify Number_toString s') = s').
Proof.
  assert (H1 : exportResults JSON_stringify Number_toString
                 (exec (exec s (runVQE s0 random)) (generateDissociationCurve s0))
               = [Download (exportName Number_toString (config s)) "application/json"
                    (JSON_stringify
                       {| configuration := config s;
                          exp_results := Some (snapshotAt (config s0) random 50);
                          dissociation := map morsePoint (seq 0 15) |} 2%nat)]).
  { unfold exportResults.
    rewrite generateDissociationCurve_results, runVQE_results.
    rewrite !config_exec, generateDissociationCurve_data. reflexivity. }
  split; [exact H1|]. split.
  - rewrite H1. unfold exportResults.
    rewrite runVQE_results, !config_exec, runVQE_data.
    rewrite generateDissociationCurve_data. reflexivity.
  - intros s'. unfold exportResults. destruct (results s'); reflexivity.
Qed.

(** X6.  The export button is not tied to the running flag.  Once the first
    pass of a run has published its snapshot, while the run is still going,
    the button is enabled and [exportResults] downloads a document whose
    result is that one-point snapshot. *)
Theorem export_during_run (JSON_stringify : ExportData -> nat -> string)
    (Number_toString : R -> string) (s0 s : AppState) (random : nat -> R) :
  (exists rest, runVQE s0 random = firstPass (config s0) random ++ rest)
  /\ isRunning (exec s (firstPass (config s0) random)) = true
  /\ exportDisabled (exec s (firstPass (config s0) random)) = false
  /\ exportResults JSON_stringify Number_toString
       (exec s (firstPass (config s0) random))
     = [Download (exportName Number_toString (config s)) "application/json"
          (JSON_stringify
             {| configuration := config s;
                exp_results := Some (snapshotAt (config s0) random 0);
                dissociation := dissociationData s |} 2%nat)]
  /\ List.length (convergence (snapshotAt (config s0) random 0)) = 1%nat.
Proof.
  split; [apply runVQE_firstPass|].
  split; [reflexivity|]. split; [reflexivity|]. split; [reflexivity|].
  apply convergence_snapshotAt.
Qed.

(** ** The snapshots of a run *)

Lemma snapshotAt_prefix (c : MoleculeConfig) (random : nat -> R) (j k : nat) :
  (j <= k)%nat ->
  exists rest,
    convergence (snapshotAt c random k) = convergence (snapshotAt c random j) ++ rest.
Proof.
  intros Hjk. exists (map (pointAt c random) (seq (S j) (k - j))).
  unfold snapshotAt, snapshot. cbn [convergence].
  rewrite <- map_app, <- seq_app. do 2 f_equal. lia.
Qed.

Lemma ForallOrdPairs_map {A B : Type} (Q : A -> A -> Prop) (P : B -> B -> Prop)
    (f : A -> B) (l : list A) :
  (forall x y, Q x y -> P (f x) (f y)) ->
  ForallOrdPairs Q l -> ForallOrdPairs P (map f l).
Proof.
  intros HQP. induction 1 as [|x l Hx _ IH]; cbn [map]; constructor; [|exact IH].
  apply Forall_forall. intros y Hy. apply in_map_iff in Hy.
  destruct Hy as [z [<- Hz]]. rewrite Forall_forall in Hx.
  apply HQP, Hx. exact Hz.
Qed.

Lemma snapshotPasses_ordered : ForallOrdPairs le snapshotPasses.
Proof.
  unfold snapshotPasses.
  repeat first [ apply FOP_nil | apply FOP_cons
               | apply Forall_nil | apply Forall_cons; [lia|] ].
Qed.

(** X7.  Every snapshot a run publishes is consistent with itself: its
    sequence has as many points as [evaluations] says, so the table's "Total
    Iterations" and "Function Calls" agree; the points are numbered 0, 1,
    ..., in order; and the energy of the snapshot is the energy of its last
    point. *)
Theorem snapshot_consistency (s0 : AppState) (random : nat -> R) :
  Forall2
    (fun i v =>
       List.length (convergence v) = evaluations (diagnostics v)
       /\ map iteration (convergence v) = seq 0 (S i)
       /\ nth_error (convergence v) i
            = Some {| iteration := i; cp_energy := energy v |}
       /\ option_map shownIterations (ResultsTable (Some v) (config s0))
            = option_map functionCalls (ResultsTable (Some v) (config s0)))
    snapshotPasses (published (runVQE s0 random)).
Proof.
  rewrite runVQE_published. apply Forall2_map_r. intros i _.
  assert (Hlen : List.length (convergence (snapshotAt (config s0) random i))
                 = evaluations (diagnostics (snapshotAt (config s0) random i))).
  { rewrite convergence_snapshotAt. cbn [snapshotAt snapshot diagnostics evaluations].
    lia. }
  split; [exact Hlen|]. split; [|split].
  - unfold snapshotAt, snapshot. cbn [convergence].
    rewrite map_map. cbn [pointAt iteration]. apply map_id.
  - unfold snapshotAt, snapshot. cbn [convergence energy].
    apply nth_error_points. lia.
  - cbn [ResultsTable option_map shownIterations functionCalls].
    rewrite Hlen. reflexivity.
Qed.

(** X8.  The sequences of the snapshots of a run only grow by appending:
    each snapshot's sequence is the sequence of every earlier snapshot of the
    run followed by further points. *)
Theorem snapshots_append_only (s0 : AppState) (random : nat -> R) :
  ForallOrdPairs
    (fun v w => exists rest, convergence w = convergence v ++ rest)
    (published (runVQE s0 random)).
Proof.
  rewrite runVQE_published.
  apply (ForallOrdPairs_map le); [|exact snapshotPasses_ordered].
  intros j k Hjk. apply snapshotAt_prefix. exact Hjk.
Qed.

(** ** Bounds on the exponential *)

Lemma exp_mul_inv (x : R) : exp x * exp (- x) = 1.
Proof. rewrite <- exp_plus, Rplus_opp_r. apply exp_0. Qed.

Lemma exp_le_mono (x y : R) : x <= y -> exp x <= exp y.
Proof.
  intros [H| ->]; [left; apply exp_increasing; exact H | apply Rle_refl].
Qed.

Lemma exp_neg_15 : exp (-1.5) < 0.3.
Proof.
  pose proof (exp_ineq1_le 0.5) as H1.
  assert (H2 : exp 1 = exp 0.5 * exp 0.5) by (rewrite <- exp_plus; f_equal; lra).
  assert (H3 : exp 1.5 = exp 1 * exp 0.5) by (rewrite <- exp_plus; f_equal; lra).
  assert (H4 : 2.25 <= exp 1) by nra.
  assert (H5 : 3.375 <= exp 1.5) by nra.
  pose proof (exp_mul_inv 1.5) as H6. pose proof (exp_pos (-1.5)) as H7.
  replace (- (1.5)) with (-1.5) in H6 by lra. nra.
Qed.

Lemma exp_neg_5 : exp (-5) < 0.04.
Proof.
  pose proof (exp_ineq1_le 1) as H1.
  assert (H2 : exp 2 = exp 1 * exp 1) by (rewrite <- exp_plus; f_equal; lra).
  assert (H4 : exp 4 = exp 2 * exp 2) by (rewrite <- exp_plus; f_equal; lra).
  assert (H5 : exp 5 = exp 4 * exp 1) by (rewrite <- exp_plus; f_equal; lra).
  assert (G2 : 4 <= exp 2) by nra.
  assert (G4 : 16 <= exp 4) by nra.
  assert (G5 : 32 <= exp 5) by nra.
  pose proof (exp_mul_inv 5) as H6. pose proof (exp_pos (-5)) as H7.
  replace (- (5)) with (-5) in H6 by lra. nra.
Qed.

(** For [x < 1], [exp x <= 1 / (1 - x)]. *)
Lemma exp_upper (x : R) : x < 1 -> exp x * (1 - x) <= 1.
Proof.
  intros Hx. pose proof (exp_ineq1_le (- x)) as H1.
  pose proof (exp_mul_inv x) as H2. pose proof (exp_pos x) as H3. nra.
Qed.

Lemma decay_0 : decay 0 = 1.
Proof. unfold decay. simpl INR. rewrite Rmult_0_r. apply exp_0. Qed.

Lemma decay_pos (i : nat) : 0 < decay i.
Proof. apply exp_pos. Qed.

Lemma decay_S (i : nat) : decay (S i) < decay i.
Proof. unfold decay. apply exp_increasing. rewrite S_INR. lra. Qed.

Lemma decay_le (j k : nat) : (j <= k)%nat -> decay k <= decay j.
Proof.
  intros Hjk. unfold decay. apply exp_le_mono. apply le_INR in Hjk. lra.
Qed.

Lemma decay_15 : decay 15 < 0.3.
Proof.
  unfold decay. replace (-0.1 * INR 15) with (-1.5) by (simpl INR; lra).
  exact exp_neg_15.
Qed.

Lemma decay_50 : decay 50 < 0.04.
Proof.
  unfold decay. replace (-0.1 * INR 50) with (-5) by (simpl INR; lra).
  exact exp_neg_5.
Qed.

Lemma noise_abs (i : nat) (rnd : R) :
  Rabs (noise i rnd) = 0.01 * decay i * Rabs (rnd - 0.5).
Proof.
  rewrite noise_decay_jitter, Rabs_mult.
  rewrite (Rabs_pos_eq (decay i)) by (left; apply decay_pos).
  unfold jitter. rewrite Rabs_mult, (Rabs_pos_eq 0.01) by lra. ring.
Qed.

Lemma snapshotAt_error (c : MoleculeConfig) (random : nat -> R) (i : nat) :
  error (diagnostics (snapshotAt c random i))
  = 10 * decay i * Rabs (random i - 0.5).
Proof.
  unfold snapshotAt, snapshot. cbn [diagnostics error].
  replace (baseEnergy c + noise i (random i) - baseEnergy c)
    with (noise i (random i)) by ring.
  rewrite noise_abs. lra.
Qed.

Lemma random_centered (x : R) : 0 <= x < 1 -> Rabs (x - 0.5) <= 0.5.
Proof. intros H. apply Rabs_le. lra. Qed.

(** ** The noise and the accuracy of the snapshots *)

(** X9.  The noise of a pass has magnitude
    [0.01 * exp(-0.1 * i) * |random - 0.5|]: 0.01 * |random - 0.5| at pass 0
    and, for a same random value other than 0.5, strictly smaller at each
    later pass. *)
Theorem noise_magnitude_decays (i : nat) (rnd : R) :
  Rabs (noise i rnd) = 0.01 * decay i * Rabs (rnd - 0.5)
  /\ Rabs (noise 0 rnd) = 0.01 * Rabs (rnd - 0.5)
  /\ (rnd <> 0.5 -> Rabs (noise (S i) rnd) < Rabs (noise i rnd))
  /\ (rnd = 0.5 -> noise i rnd = 0).
Proof.
  split; [apply noise_abs|]. split; [|split].
  - rewrite noise_abs, decay_0. ring.
  - intros Hne. rewrite !noise_abs.
    assert (Hpos : 0 < Rabs (rnd - 0.5)) by (apply Rabs_pos_lt; lra).
    pose proof (decay_S i). nra.
  - intros ->. unfold noise. lra.
Qed.

(** X10.  The first snapshot of a run is classified as chemically accurate
    whenever the first random value is within 0.159 of 0.5, and as not
    accurate whenever it is 0.161 or more away from 0.5: its error is about
    ten times that distance. *)
Theorem first_snapshot_accuracy (s0 : AppState) (random : nat -> R) :
  exists v0,
    nth_error (published (runVQE s0 random)) 0 = Some v0
    /\ (Rabs (random 0%nat - 0.5) <= 0.159 ->
        chemicalAccuracy (error (diagnostics v0)) = true)
    /\ (0.161 <= Rabs (random 0%nat - 0.5) ->
        chemicalAccuracy (error (diagnostics v0)) = false).
Proof.
  rewrite runVQE_published.
  exists (snapshotAt (config s0) random 0). split; [reflexivity|].
  split; intros H.
  - rewrite chemicalAccuracy_spec, snapshotAt_error, decay_0. lra.
  - destruct (chemicalAccuracy
                (error (diagnostics (snapshotAt (config s0) random 0)))) eqn:E;
      [|reflexivity].
    rewrite chemicalAccuracy_spec, snapshotAt_error, decay_0 in E. lra.
Qed.

(** X11.  When the random values lie in [0, 1), every snapshot from pass 15
    on is classified as chemically accurate, and so is the result stored
    when the run ends: both displays show the check mark. *)
Theorem late_snapshots_accurate (s0 s : AppState) (random : nat -> R) :
  (forall k, 0 <= random k < 1) ->
  Forall2
    (fun i v => (15 <= i)%nat -> chemicalAccuracy (error (diagnostics v)) = true)
    snapshotPasses (published (runVQE s0 random))
  /\ option_map accuracyLabel (results (exec s (runVQE s0 random)))
       = Some "✓ Achieved"%string
  /\ option_map accuracyMark (results (exec s (runVQE s0 random)))
       = Some "✓"%string.
Proof.
  intros Hr.
  assert (Hacc : forall i, (15 <= i)%nat ->
            chemicalAccuracy (error (diagnostics (snapshotAt (config s0) random i)))
            = true).
  { intros i Hi. rewrite chemicalAccuracy_spec, snapshotAt_error.
    pose proof (random_centered _ (Hr i)) as Hc.
    pose proof (Rabs_pos (random i - 0.5)) as Hp.
    pose proof (decay_le 15 i Hi) as Hd. pose proof decay_15 as H15.
    pose proof (decay_pos i) as H0. nra. }
  split; [|split].
  - rewrite runVQE_published. apply Forall2_map_r. intros i _. apply Hacc.
  - rewrite runVQE_results. cbn [option_map]. unfold accuracyLabel.
    rewrite Hacc by lia. reflexivity.
  - rewrite runVQE_results. cbn [option_map]. unfold accuracyMark.
    rewrite Hacc by lia. reflexivity.
Qed.

(** X11, witness: the run with no jitter. *)
Lemma late_snapshots_accurate_midRandom :
  option_map accuracyMark (results (exec initialState (runVQE initialState midRandom)))
  = Some "✓"%string.
Proof.
  apply (late_snapshots_accurate initialState initialState midRandom).
  intros k. unfold midRandom. lra.
Defined.

(** ** The energies against the reference values of the table *)

Lemma noise_range (i : nat) (rnd : R) :
  0 <= rnd < 1 -> Rabs (noise i rnd) <= 0.005 * decay i.
Proof.
  intros Hr. rewrite noise_abs.
  pose proof (random_centered _ Hr). pose proof (decay_pos i). nra.
Qed.

Lemma decay_le_1 (i : nat) : decay i <= 1.
Proof. rewrite <- decay_0. apply decay_le. lia. Qed.

(** X12.  When the last random value lies in [0, 1), the table of a finished
    run shows the check mark, an energy more than 13 mHa below the
    Hartree-Fock value, and a distance to the exact value below 0.3 mHa for
    H2 but above 3.5 mHa for LiH: for LiH the check mark stands beside a
    "VQE vs Exact" larger than the 1.6 mHa threshold. *)
Theorem finished_run_table (s : AppState) (random : nat -> R) :
  0 <= random 50%nat < 1 ->
  exists view,
    ResultsTable (results (exec s (runVQE s random))) (config s) = Some view
    /\ chemMark view = "✓"%string
    /\ vsHF view < -13
    /\ match molecule (config s) with
       | H2 => Rabs (vsExact view) < 0.3
       | LiH => 3.5 < vsExact view
       end.
Proof.
  intros Hr. rewrite runVQE_results. eexists. split; [reflexivity|].
  cbn [chemMark vsHF vsExact].
  pose proof (noise_range 50 _ Hr) as Hn. pose proof decay_50 as H50.
  pose proof (decay_pos 50) as Hp.
  assert (Hb : -0.0002 < noise 50 (random 50%nat) < 0.0002).
  { destruct (Rabs_def2 (noise 50 (random 50%nat)) 0.0002) as [H1 H2]; lra. }
  split; [|split].
  - unfold accuracyMark.
    replace (chemicalAccuracy
               (error (diagnostics (snapshotAt (config s) random 50))))
      with true; [reflexivity|].
    symmetry. rewrite chemicalAccuracy_spec, snapshotAt_error.
    pose proof (noise_abs 50 (random 50%nat)) as Ha. nra.
  - unfold diffMilliHartree, snapshotAt, snapshot, hfEnergy, baseEnergy.
    cbn [energy]. destruct (molecule (config s)); lra.
  - unfold diffMilliHartree, snapshotAt, snapshot, exactEnergy, baseEnergy.
    cbn [energy]. destruct (molecule (config s)); [apply Rabs_def1|]; lra.
Qed.

(** X12, witness: the first run with no jitter. *)
Lemma finished_run_table_midRandom :
  exists view,
    ResultsTable (results (exec initialState (runVQE initialState midRandom)))
                 (config initialState) = Some view
    /\ chemMark view = "✓"%string
    /\ vsHF view < -13
    /\ Rabs (vsExact view) < 0.3.
Proof.
  apply (finished_run_table initialState midRandom).
  unfold midRandom. lra.
Defined.

(** X13.  When the random values lie in [0, 1), every point of a run is
    within 0.005 Ha of the reference energy and more than 0.008 Ha below the
    Hartree-Fock value.  The exact value is no lower bound: for either
    molecule a random value of 0 puts the first point below it. *)
Theorem run_energies_range (s0 s : AppState) (random : nat -> R) :
  (forall k, 0 <= random k < 1) ->
  Forall
    (fun p =>
       Rabs (cp_energy p - baseEnergy (config s0)) <= 0.005
       /\ cp_energy p < hfEnergy (config s0) - 0.008)
    (shownConvergence (exec s (runVQE s0 random)))
  /\ List.length (shownConvergence (exec s (runVQE s0 random))) = 51%nat
  /\ baseEnergy (config s0) + noise 0 0 < exactEnergy (config s0).
Proof.
  intros Hr. rewrite runVQE_shown. split; [|split].
  - apply Forall_forall. intros p Hp. apply in_map_iff in Hp.
    destruct Hp as [k [<- _]]. cbn [pointAt cp_energy].
    pose proof (noise_range k _ (Hr k)) as Hn. pose proof (decay_le_1 k) as Hd.
    assert (Hb : Rabs (noise k (random k)) <= 0.005) by lra.
    split.
    + replace (baseEnergy (config s0) + noise k (random k) - baseEnergy (config s0))
        with (noise k (random k)) by ring. exact Hb.
    + pose proof (Rle_abs (noise k (random k))) as Hu.
      unfold hfEnergy, baseEnergy.
      destruct (molecule (config s0)); lra.
  - rewrite length_map, length_seq. reflexivity.
  - unfold noise, exactEnergy, baseEnergy. simpl INR.
    replace (- 0 * 0.1) with 0 by lra. rewrite exp_0.
    destruct (molecule (config s0)); lra.
Qed.

(** X13, witness: the run with no jitter. *)
Lemma run_energies_range_midRandom :
  List.length (shownConvergence (exec initialState (runVQE initialState midRandom)))
  = 51%nat.
Proof.
  apply (run_energies_range initialState initialState midRandom).
  intros k. unfold midRandom. lra.
Defined.

(** ** The shape of the dissociation curve *)

Lemma morse_unfold (x : R) :
  morse x
  = -1.59287
    + 0.4556 * ((1 - exp (-1.44 * (x - 0.74))) * (1 - exp (-1.44 * (x - 0.74)))).
Proof.
  rewrite morse_formula. set (t := 1 - exp (-1.44 * (x - 0.74))).
  replace (t ^ 2) with (t * t) by ring. lra.
Qed.

Lemma morse_re : morse re = -1.59287.
Proof.
  rewrite morse_unfold. unfold re.
  replace (-1.44 * (0.74 - 0.74)) with 0 by lra. rewrite exp_0. lra.
Qed.

Lemma exp_eq_1 (y : R) : exp y = 1 -> y = 0.
Proof. intros H. apply exp_inv. rewrite exp_0. exact H. Qed.

Lemma morse_lower (x : R) : -1.59287 <= morse x.
Proof.
  rewrite morse_unfold. set (e := exp (-1.44 * (x - 0.74))).
  pose proof (Rle_0_sqr (1 - e)) as Hsq. unfold Rsqr in Hsq. lra.
Qed.

Lemma morse_lowest_only_at_re (x : R) : morse x = -1.59287 -> x = re.
Proof.
  rewrite morse_unfold. set (e := exp (-1.44 * (x - 0.74))). intros H.
  assert (H0 : (1 - e) * (1 - e) = 0) by lra.
  apply Rmult_integral in H0. assert (He : e = 1) by (destruct H0; lra).
  apply exp_eq_1 in He. unfold re. lra.
Qed.

(** X14.  The curve formula has its only minimum at the equilibrium length:
    [morse x >= morse re = -1.59287] for every [x], with equality only at
    [x = re = 0.74]. *)
Theorem morse_minimum (x : R) :
  morse re = -1.59287
  /\ morse re <= morse x
  /\ (morse x = morse re <-> x = re).
Proof.
  split; [exact morse_re|]. rewrite morse_re.
  split; [apply morse_lower|]. split.
  - apply morse_lowest_only_at_re.
  - intros ->. exact morse_re.
Qed.

(** The formula stays below the value it tends to at large lengths wherever
    the exponential is below 2, which holds from 0.4 on. *)
Lemma morse_below_limit (x : R) : 0.4 <= x -> morse x < -1.13727.
Proof.
  intros Hx. rewrite morse_unfold.
  set (y := -1.44 * (x - 0.74)).
  assert (Hy : y <= 0.4896) by (unfold y; lra).
  pose proof (exp_pos y) as H0.
  assert (H1 : exp y * (1 - y) <= 1) by (apply exp_upper; lra).
  assert (H2 : exp y < 2) by nra.
  nra.
Qed.

Lemma morse_falls (x y : R) : x < y -> y <= re -> morse y < morse x.
Proof.
  unfold re. intros Hxy Hy. rewrite !morse_unfold.
  assert (H1 : exp (-1.44 * (y - 0.74)) < exp (-1.44 * (x - 0.74)))
    by (apply exp_increasing; lra).
  assert (H2 : 1 <= exp (-1.44 * (y - 0.74)))
    by (rewrite <- exp_0; apply exp_le_mono; lra).
  nra.
Qed.

Lemma morse_rises (x y : R) : re <= x -> x < y -> morse x < morse y.
Proof.
  unfold re. intros Hx Hxy. rewrite !morse_unfold.
  assert (H1 : exp (-1.44 * (y - 0.74)) < exp (-1.44 * (x - 0.74)))
    by (apply exp_increasing; lra).
  assert (H2 : exp (-1.44 * (x - 0.74)) <= 1)
    by (rewrite <- exp_0; apply exp_le_mono; lra).
  pose proof (exp_pos (-1.44 * (y - 0.74))) as H3.
  nra.
Qed.

Lemma morsePoint_energy (k : nat) : dp_energy (morsePoint k) = morse (r (morsePoint k)).
Proof. rewrite morse_formula. reflexivity. Qed.

Lemma morsePoint_off_equilibrium (k : nat) : r (morsePoint k) <> re.
Proof.
  cbn [morsePoint r]. unfold re. intros H.
  destruct (le_lt_dec k 2) as [Hk|Hk].
  - apply le_INR in Hk. simpl INR in Hk. lra.
  - assert (H3 : (3 <= k)%nat) by lia.
    apply le_INR in H3. simpl INR in H3. lra.
Qed.

(** X15.  Every point of a generated curve has a bond length between 0.4 and
    2.5 that is not the equilibrium length, and an energy strictly between
    the minimum of the formula, -1.59287, and -1.13727: the grid steps over
    the minimum, so the curve never shows it. *)
Theorem curve_energy_range (s0 s : AppState) :
  Forall
    (fun p =>
       0.4 <= r p <= 2.5
       /\ r p <> re
       /\ -1.59287 < dp_energy p < -1.13727)
    (dissociationData (exec s (generateDissociationCurve s0)))
  /\ List.length (dissociationData (exec s (generateDissociationCurve s0)))
       = 15%nat.
Proof.
  rewrite generateDissociationCurve_data. split.
  - apply Forall_forall. intros p Hp. apply in_map_iff in Hp.
    destruct Hp as [k [<- Hk]]. apply in_seq in Hk.
    assert (Hr : 0.4 <= r (morsePoint k) <= 2.5).
    { cbn [morsePoint r]. pose proof (pos_INR k).
      assert (Hle : (k <= 14)%nat) by lia.
      apply le_INR in Hle. simpl INR in Hle. lra. }
    pose proof (morsePoint_off_equilibrium k) as Hne.
    split; [exact Hr|]. split; [exact Hne|].
    rewrite morsePoint_energy. split.
    + destruct (morse_lower (r (morsePoint k))) as [Hlt|Heq]; [exact Hlt|].
      exfalso. apply Hne, morse_lowest_only_at_re. symmetry. exact Heq.
    + apply morse_below_limit. lra.
  - rewrite length_map, length_seq. reflexivity.
Qed.

Lemma nth_error_morsePoints (k : nat) (p : DissociationPoint) :
  nth_error (map morsePoint (seq 0 15)) k = Some p ->
  (k < 15)%nat /\ p = morsePoint k.
Proof.
  rewrite nth_error_map, nth_error_seq.
  destruct (Nat.ltb_spec k 15) as [Hk|Hk]; cbn [option_map Nat.add]; intros H.
  - split; [exact Hk|]. injection H as <-. reflexivity.
  - discriminate H.
Qed.

(** X16.  Along a generated curve the bond lengths strictly increase; the
    energies strictly fall over the first three points (lengths up to 0.70,
    before the equilibrium length) and strictly rise from the fourth point
    on (lengths from 0.85, past it). *)
Theorem curve_shape (s0 s : AppState) (k : nat) (p q : DissociationPoint) :
  nth_error (dissociationData (exec s (generateDissociationCurve s0))) k = Some p ->
  nth_error (dissociationData (exec s (generateDissociationCurve s0))) (S k) = Some q ->
  r p < r q
  /\ ((k < 2)%nat -> dp_energy q < dp_energy p)
  /\ ((3 <= k)%nat -> dp_energy p < dp_energy q).
Proof.
  rewrite generateDissociationCurve_data. intros Hp Hq.
  apply nth_error_morsePoints in Hp. apply nth_error_morsePoints in Hq.
  destruct Hp as [Hk ->]. destruct Hq as [_ ->].
  rewrite !morsePoint_energy. cbn [morsePoint r]. rewrite S_INR.
  split; [lra|]. split; intros Hcase.
  - apply morse_falls; [lra|]. unfold re.
    assert (H1 : (k <= 1)%nat) by lia. apply le_INR in H1. simpl INR in H1. lra.
  - apply morse_rises; [|lra]. unfold re.
    apply le_INR in Hcase. simpl INR in Hcase. lra.
Qed.

(** X16, witness: the first two points of a curve generated from the
    initial state. *)
Lemma curve_shape_first_points :
  r (morsePoint 0) < r (morsePoint 1)
  /\ ((0 < 2)%nat -> dp_energy (morsePoint 1) < dp_energy (morsePoint 0))
  /\ ((3 <= 0)%nat -> dp_energy (morsePoint 0) < dp_energy (morsePoint 1)).
Proof.
  apply (curve_shape initialState initialState 0).
  - rewrite generateDissociationCurve_data. reflexivity.
  - rewrite generateDissociationCurve_data. reflexivity.
Defined.

(** ** The two generators one after the other *)

Lemma runVQE_isRunning (s0 s : AppState) (random : nat -> R) :
  isRunning (exec s (runVQE s0 random)) = false.
Proof.
  rewrite runVQE_shape. apply running_inside. apply runVQE_inner_keepsRunning.
Qed.

Lemma generateDissociationCurve_isRunning (s0 s : AppState) :
  isRunning (exec s (generateDissociationCurve s0)) = false.
Proof.
  rewrite generateDissociationCurve_shape. apply running_inside.
  apply curve_inner_keepsRunning.
Qed.

(** X17.  Running the two generators one after the other gives the same
    configuration, flag, stored result and curve in either order; only the
    progress left behind differs: 280/3 when the curve generator ran last,
    100 when the simulator did. *)
Theorem generators_commute (s0 s : AppState) (random : nat -> R) :
  config (exec (exec s (runVQE s0 random)) (generateDissociationCurve s0))
    = config (exec (exec s (generateDissociationCurve s0)) (runVQE s0 random))
  /\ isRunning (exec (exec s (runVQE s0 random)) (generateDissociationCurve s0))
     = isRunning (exec (exec s (generateDissociationCurve s0)) (runVQE s0 random))
  /\ results (exec (exec s (runVQE s0 random)) (generateDissociationCurve s0))
     = results (exec (exec s (generateDissociationCurve s0)) (runVQE s0 random))
  /\ dissociationData
       (exec (exec s (runVQE s0 random)) (generateDissociationCurve s0))
     = dissociationData
         (exec (exec s (generateDissociationCurve s0)) (runVQE s0 random))
  /\ progress (exec (exec s (runVQE s0 random)) (generateDissociationCurve s0))
     = 280 / 3
  /\ progress (exec (exec s (generateDissociationCurve s0)) (runVQE s0 random))
     = 100.
Proof.
  split; [rewrite !config_exec; reflexivity|].
  split; [rewrite runVQE_isRunning, generateDissociationCurve_isRunning;
          reflexivity|].
  split; [rewrite generateDissociationCurve_results, !runVQE_results; reflexivity|].
  split; [rewrite runVQE_data, !generateDissociationCurve_data; reflexivity|].
  split.
  - rewrite progress_exec, generateDissociationCurve_progressWrites.
    rewrite rev_map_seq_S. simpl INR. lra.
  - rewrite progress_exec, runVQE_progressWrites.
    cbn [rev]. rewrite rev_map_seq_S. cbn [app].
    unfold totalIterations. simpl INR. lra.
Qed.

(** ** The dissociation card *)

(** X18.  The dissociation card is absent while no curve is stored, and a
    run of the simulator does not change it.  After a run of the curve
    generator it shows 15 points, at the abscissas [40 + 15 * k] (the bond
    lengths times 100) with the energies of the curve. *)
Theorem dissociation_card (s0 s : AppState) (random : nat -> R) :
  (dissociationData s = [] -> dissociationPlot s = None)
  /\ dissociationPlot (exec s (runVQE s0 random)) = dissociationPlot s
  /\ exists pts,
       dissociationPlot (exec s (generateDissociationCurve s0)) = Some pts
       /\ List.length pts = 15%nat
       /\ (forall k, (k < 15)%nat ->
             nth_error pts k
             = Some (40 + 15 * INR k, dp_energy (morsePoint k))).
Proof.
  split; [|split].
  - intros H. unfold dissociationPlot. rewrite H. reflexivity.
  - unfold dissociationPlot. rewrite runVQE_data. reflexivity.
  - unfold dissociationPlot. rewrite generateDissociationCurve_data.
    rewrite length_map, length_seq. cbn [Nat.ltb Nat.leb].
    eexists. split; [reflexivity|]. split.
    + rewrite !length_map, length_seq. reflexivity.
    + intros k Hk. rewrite map_map, nth_error_map, nth_error_seq.
      destruct (Nat.ltb_spec k 15) as [_|Hge]; [|lia].
      cbn [option_map Nat.add morsePoint r dp_energy]. do 2 f_equal. lra.
Qed.

(** * The tight numeric statements in binary64 *)

(** ** A lower bound on the exponential from its series *)

Lemma expTerm_series (x : R) (k : nat) : / INR (fact k) * x ^ k = expTerm x k.
Proof.
  induction k as [|k IH].
  - simpl. lra.
  - cbn [expTerm]. rewrite <- IH, fact_simpl, mult_INR.
    cbn [pow]. field. split; [apply INR_fact_neq_0 | apply not_0_INR; lia].
Qed.

Lemma E1_expSum (x : R) (n : nat) : E1 x n = expSum x n.
Proof.
  induction n as [|n IH].
  - unfold E1. simpl. lra.
  - unfold E1 in *. cbn [sum_f_R0 expSum]. rewrite IH, expTerm_series.
    reflexivity.
Qed.

Lemma expTerm_nonneg (x : R) (k : nat) : 0 <= x -> 0 <= expTerm x k.
Proof.
  intros Hx. induction k as [|k IH]; cbn [expTerm]; [lra|].
  apply Rmult_le_pos; [apply Rmult_le_pos; assumption|].
  left. apply Rinv_0_lt_compat. apply lt_0_INR. lia.
Qed.

Lemma expSum_le_exp (x : R) (n : nat) : 0 <= x -> expSum x n <= exp x.
Proof.
  intros Hx. rewrite <- E1_expSum.
  apply (growing_ineq (E1 x)); [|apply E1_cvg].
  intros k. rewrite !E1_expSum. cbn [expSum].
  pose proof (expTerm_nonneg x (S k) Hx). lra.
Qed.

Lemma exp_half_lower : 11258999068426240 / 6828928132676500 < exp (1 / 2).
Proof.
  apply Rlt_le_trans with (expSum (1 / 2) 14); [|apply expSum_le_exp; lra].
  cbn [expSum expTerm]. simpl INR. lra.
Qed.

Lemma exp_minus_half_upper : exp (-0.1 * INR 5) < 6828928132676500 / 11258999068426240.
Proof.
  replace (-0.1 * INR 5) with (- (1 / 2)) by (simpl INR; lra).
  pose proof exp_half_lower as H. pose proof (exp_mul_inv (1 / 2)) as Hinv.
  pose proof (exp_pos (- (1 / 2))) as Hpos. nra.
Qed.

(** ** The expressions evaluated as the program evaluates them *)

Example argument_of_pass5 : (- 5 * 0.1)%float = (-0.5)%float.
Proof. vm_compute. reflexivity. Qed.

Lemma error64_pass5 :
  error64 Math_exp_sample H2 5 0 = 3.0326532985631705%float.
Proof. vm_compute. reflexivity. Qed.

Lemma error64_pass5_value :
  float_to_R (error64 Math_exp_sample H2 5 0)
  = 6828928132676500 / 2251799813685248.
Proof.
  unfold float_to_R.
  replace (Prim2SF (error64 Math_exp_sample H2 5 0))
    with (SpecFloat.S754_finite false 6828928132676500 (-51))
    by (vm_compute; reflexivity).
  cbv beta iota zeta.
  change (2 ^ 51)%Z with 2251799813685248%Z. reflexivity.
Qed.

Lemma distance64_pass5_value :
  float_to_R (abs (energy64 Math_exp_sample H2 5 0 - baseEnergy64 H2))
  = 6992822407860736 / 2305843009213693952.
Proof.
  unfold float_to_R.
  replace (Prim2SF (abs (energy64 Math_exp_sample H2 5 0 - baseEnergy64 H2)))
    with (SpecFloat.S754_finite false 6992822407860736 (-61))
    by (vm_compute; reflexivity).
  cbv beta iota zeta.
  change (2 ^ 61)%Z with 2305843009213693952%Z. reflexivity.
Qed.

(** C9, counterexample: H2, pass 5, random value 0.  The argument of
    [Math.exp] is -0.5; with the double nearest to [exp(-0.5)] the program
    publishes the error 3.0326532985631705, which is more than
    [5 * exp(-0.5)], and the distance of the energy to the reference is more
    than [0.005 * exp(-0.5)]. *)
Lemma noise_bound_exceeded_binary64 :
  error64 Math_exp_sample H2 5 0 = 3.0326532985631705%float
  /\ float_to_R (error64 Math_exp_sample H2 5 0) > 5 * exp (-0.1 * INR 5)
  /\ float_to_R (abs (energy64 Math_exp_sample H2 5 0 - baseEnergy64 H2))
     > 0.005 * exp (-0.1 * INR 5).
Proof.
  split; [exact error64_pass5|].
  rewrite error64_pass5_value, distance64_pass5_value.
  pose proof exp_minus_half_upper as H. split; lra.
Qed.

(** C8, counterexample: LiH, pass 0, random value 0.25.  The energy is
    -7.8798000000000004; times 27.2114 and divided by 27.2114 it comes back
    as -7.8798000000000012, another double. *)
Lemma hartree_round_trip_inexact_binary64 :
  energy64 Math_exp_sample LiH 0 0.25 = (-7.8798000000000004)%float
  /\ (hartreeToEV64 (energy64 Math_exp_sample LiH 0 0.25) / 27.2114)%float
     = (-7.8798000000000012)%float
  /\ ((hartreeToEV64 (energy64 Math_exp_sample LiH 0 0.25) / 27.2114
       =? energy64 Math_exp_sample LiH 0 0.25)%float) = false.
Proof. repeat split; vm_compute; reflexivity. Qed.

(** ** Bounds under rounding *)

Lemma abs_le_inv (x b : R) : Rabs x <= b -> - b <= x <= b.
Proof.
  intros H. pose proof (Rle_abs x) as H1. pose proof (Rle_abs (- x)) as H2.
  rewrite Rabs_Ropp in H2. lra.
Qed.

(** With the rounding and [Math.exp] left exact the rounded expressions are
    those of the exact model. *)
Lemma rounded_exact (c : MoleculeConfig) (i : nat) (rnd : R) :
  energy_fl (fun x => x) exp c i rnd = baseEnergy c + noise i rnd
  /\ error_fl (fun x => x) exp c i rnd
     = Rabs (baseEnergy c + noise i rnd - baseEnergy c) * 1000.
Proof. split; reflexivity. Qed.

Lemma roundAway_rel (x : R) :
  Rabs (roundAway x - x) <= unitRoundoff * Rabs x.
Proof.
  unfold roundAway. replace (x * (1 + unitRoundoff) - x) with (unitRoundoff * x) by ring.
  rewrite Rabs_mult, (Rabs_pos_eq unitRoundoff) by (unfold unitRoundoff; lra).
  apply Rle_refl.
Qed.

Lemma unitRoundoff_range : 0 <= unitRoundoff <= / 9007199254740992.
Proof. unfold unitRoundoff. lra. Qed.

Lemma exp_exact_rel (x : R) : Rabs (exp x - exp x) <= 0 * exp x.
Proof. rewrite Rminus_diag, Rabs_R0. lra. Qed.

Section Rounded.
(** Every operation returns its exact result with a relative error of at
    most [u <= 2^-53], and [Math.exp] the exponential with a relative error
    of at most [eps <= 2^-52]. *)
Variable fl : R -> R.
Variable Math_exp : R -> R.
Variables u eps : R.
Hypothesis fl_rel : forall x, Rabs (fl x - x) <= u * Rabs x.
Hypothesis exp_rel : forall x, Rabs (Math_exp x - exp x) <= eps * exp x.
Hypothesis u_range : 0 <= u <= / 9007199254740992.
Hypothesis eps_range : 0 <= eps <= / 4503599627370496.

Lemma u_small : 0 <= u <= 0.00000000000000012.
Proof. lra. Qed.

Lemma fl_near (x B : R) : Rabs x <= B -> x - u * B <= fl x <= x + u * B.
Proof.
  intros HB. pose proof (abs_le_inv _ _ (fl_rel x)) as H.
  assert (u * Rabs x <= u * B) by (apply Rmult_le_compat_l; lra). lra.
Qed.

Lemma fl_abs (x B : R) :
  Rabs x <= B -> Rabs (fl x) <= 1.00000000000000012 * B.
Proof.
  intros HB. pose proof (fl_near x B HB) as H.
  pose proof (abs_le_inv _ _ HB) as Hx. pose proof u_small as Hu.
  assert (HB0 : 0 <= B) by (pose proof (Rabs_pos x); lra).
  assert (Hs : u * B <= 0.00000000000000012 * B)
    by (apply Rmult_le_compat_r; lra).
  apply Rabs_le. lra.
Qed.

(** The double of a positive decimal literal. *)
Lemma fl_const (k : R) :
  0 <= k ->
  0.99999999999999988 * k <= fl k <= 1.00000000000000012 * k.
Proof.
  intros Hk. pose proof u_small as Hu.
  assert (H : k - u * k <= fl k <= k + u * k)
    by (apply fl_near; rewrite Rabs_pos_eq; lra).
  assert (Hs : u * k <= 0.00000000000000012 * k)
    by (apply Rmult_le_compat_r; lra).
  lra.
Qed.

(** The argument handed to [Math.exp]. *)
Lemma argument_fl (i : nat) :
  (i <= 50)%nat ->
  fl (- INR i * fl 0.1) <= -0.1 * INR i + 0.000000000000002.
Proof.
  intros Hi. apply le_INR in Hi. simpl INR in Hi. pose proof (pos_INR i) as H0.
  pose proof (fl_const 0.1) as Hc. pose proof u_small as Hu.
  assert (Hp : Rabs (- INR i * fl 0.1) <= 5.1).
  { apply Rabs_le. nra. }
  pose proof (fl_near _ _ Hp) as Ht.
  assert (Hs : u * 5.1 <= 0.00000000000000012 * 5.1)
    by (apply Rmult_le_compat_r; lra).
  assert (Hprod : - INR i * fl 0.1 <= -0.1 * INR i + 0.000000000000001) by nra.
  lra.
Qed.

Lemma Math_exp_fl (i : nat) :
  (i <= 50)%nat ->
  0 <= Math_exp (fl (- INR i * fl 0.1))
    <= 1.000000000000005 * exp (-0.1 * INR i).
Proof.
  intros Hi. set (t := fl (- INR i * fl 0.1)).
  pose proof (argument_fl i Hi) as Ht. fold t in Ht.
  pose proof (abs_le_inv _ _ (exp_rel t)) as HE.
  pose proof (exp_pos t) as Hpos.
  assert (Hexp : exp t <= exp (-0.1 * INR i) * exp 0.000000000000002).
  { rewrite <- exp_plus. apply exp_le_mono. lra. }
  pose proof (exp_upper 0.000000000000002) as Hup.
  pose proof (exp_pos 0.000000000000002) as Hp2.
  assert (Hsmall : exp 0.000000000000002 <= 1.000000000000003) by nra.
  pose proof (exp_pos (-0.1 * INR i)) as HA.
  assert (Hexp' : exp t <= 1.000000000000003 * exp (-0.1 * INR i)).
  { apply Rle_trans with (exp (-0.1 * INR i) * exp 0.000000000000002);
      [exact Hexp|].
    rewrite (Rmult_comm 1.000000000000003).
    apply Rmult_le_compat_l; lra. }
  assert (He1 : eps * exp t <= 0.0000000000000003 * exp t)
    by (apply Rmult_le_compat_r; lra).
  assert (He0 : 0 <= eps * exp t) by (apply Rmult_le_pos; lra).
  split; lra.
Qed.

Lemma noise_fl_bound (i : nat) (rnd : R) :
  (i <= 50)%nat -> 0 <= rnd < 1 ->
  Rabs (noise_fl fl Math_exp i rnd)
  <= 0.005 * exp (-0.1 * INR i) + 0.0000000000000001.
Proof.
  intros Hi Hr. unfold noise_fl.
  set (E := Math_exp (fl (- INR i * fl 0.1))).
  pose proof (Math_exp_fl i Hi) as HE. fold E in HE.
  pose proof (exp_pos (-0.1 * INR i)) as HA.
  assert (HA1 : exp (-0.1 * INR i) <= 1).
  { rewrite <- exp_0. apply exp_le_mono. pose proof (pos_INR i). lra. }
  set (A := exp (-0.1 * INR i)) in *.
  pose proof (fl_const 0.01) as Hc.
  assert (Hn1 : Rabs (fl (E * fl 0.01)) <= 0.01000000000000006 * A).
  { assert (Hb : Rabs (E * fl 0.01)
                 <= (1.000000000000005 * A) * 0.0100000000000000012).
    { rewrite Rabs_pos_eq by (apply Rmult_le_pos; lra).
      apply Rmult_le_compat; lra. }
    pose proof (fl_abs _ _ Hb) as H. lra. }
  pose proof (fl_const 0.5) as Hh.
  assert (Hr1 : Rabs (fl (rnd - fl 0.5)) <= 0.5000000000000002).
  { assert (Hb : Rabs (rnd - fl 0.5) <= 0.5000000000000001).
    { apply Rabs_le. lra. }
    pose proof (fl_abs _ _ Hb) as H. lra. }
  assert (Hprod : Rabs (fl (E * fl 0.01) * fl (rnd - fl 0.5))
                  <= (0.01000000000000006 * A) * 0.5000000000000002).
  { rewrite Rabs_mult. apply Rmult_le_compat; try apply Rabs_pos; lra. }
  pose proof (fl_abs _ _ Hprod) as H. lra.
Qed.

Lemma baseEnergy_fl_bound (c : MoleculeConfig) : Rabs (baseEnergy_fl fl c) <= 7.9.
Proof.
  unfold baseEnergy_fl.
  assert (Hb : Rabs (baseEnergy c) <= 7.8773).
  { apply Rabs_le. unfold baseEnergy. destruct (molecule c); lra. }
  pose proof (fl_abs _ _ Hb). lra.
Qed.

(** C9 (as the code has it).  With every operation rounded to binary64 and
    the random value of pass [i] in [0, 1), the energy of pass [i] is within
    [0.005 * exp(-0.1 * i) + 1e-14] of the reference the program uses, and
    the [error] computed from it is at most [5 * exp(-0.1 * i) + 1e-11]
    milli-Hartree. *)
Theorem noise_bound_rounded (c : MoleculeConfig) (i : nat) (rnd : R) :
  (i <= 50)%nat ->
  0 <= rnd < 1 ->
  Rabs (energy_fl fl Math_exp c i rnd - baseEnergy_fl fl c)
    <= 0.005 * exp (-0.1 * INR i) + 0.00000000000001
  /\ error_fl fl Math_exp c i rnd
    <= 5 * exp (-0.1 * INR i) + 0.00000000001.
Proof.
  intros Hi Hr.
  pose proof (noise_fl_bound i rnd Hi Hr) as Hn.
  pose proof (baseEnergy_fl_bound c) as Hb.
  pose proof (exp_pos (-0.1 * INR i)) as HA.
  assert (HA1 : exp (-0.1 * INR i) <= 1).
  { rewrite <- exp_0. apply exp_le_mono. pose proof (pos_INR i). lra. }
  pose proof u_small as Hu.
  set (A := exp (-0.1 * INR i)) in *.
  set (b := baseEnergy_fl fl c) in *.
  set (n := noise_fl fl Math_exp i rnd) in *.
  assert (Hsum : Rabs (b + n) <= 8).
  { apply abs_le_inv in Hn. apply abs_le_inv in Hb. apply Rabs_le. lra. }
  pose proof (fl_near _ _ Hsum) as He.
  assert (Hs : u * 8 <= 0.00000000000000012 * 8)
    by (apply Rmult_le_compat_r; lra).
  assert (Hd : Rabs (energy_fl fl Math_exp c i rnd - b)
               <= 0.005 * A + 0.000000000000002).
  { unfold energy_fl. fold b n. apply abs_le_inv in Hn. apply Rabs_le. lra. }
  split; [lra|].
  unfold error_fl. fold b.
  set (d := energy_fl fl Math_exp c i rnd - b) in *.
  pose proof (fl_abs _ _ Hd) as Hfd.
  pose proof (fl_const 1000) as Hk.
  pose proof (Rabs_pos (fl d)) as Hpos.
  assert (Hq : Rabs (Rabs (fl d) * fl 1000)
               <= (1.00000000000000012 * (0.005 * A + 0.000000000000002))
                  * (1.00000000000000012 * 1000)).
  { rewrite Rabs_pos_eq by (apply Rmult_le_pos; lra).
    apply Rmult_le_compat; lra. }
  pose proof (fl_abs _ _ Hq) as Hfin.
  pose proof (Rle_abs (fl (Rabs (fl d) * fl 1000))). lra.
Qed.

Lemma fl_const_pos : 0 < fl 27.2114.
Proof. pose proof (fl_const 27.2114). lra. Qed.

Lemma round_trip_fl (x : R) :
  Rabs (fl (hartreeToEV_fl fl x / fl 27.2114) - x) <= (2 * u + u * u) * Rabs x.
Proof.
  unfold hartreeToEV_fl. pose proof fl_const_pos as Hc.
  set (k := fl 27.2114) in *. set (y := fl (x * k)).
  assert (H1 : Rabs (y / k - x) <= u * Rabs x).
  { replace (y / k - x) with ((y - x * k) * / k) by (field; lra).
    rewrite Rabs_mult, (Rabs_pos_eq (/ k))
      by (left; apply Rinv_0_lt_compat; exact Hc).
    pose proof (fl_rel (x * k)) as H. fold y in H.
    rewrite Rabs_mult, (Rabs_pos_eq k) in H by lra.
    apply Rmult_le_reg_r with k; [exact Hc|].
    rewrite Rmult_assoc, Rinv_l by lra. lra. }
  assert (H2 : Rabs (y / k) <= (1 + u) * Rabs x).
  { replace (y / k) with ((y / k - x) + x) by ring.
    eapply Rle_trans; [apply Rabs_triang|]. lra. }
  pose proof (fl_rel (y / k)) as H3.
  replace (fl (y / k) - x) with ((fl (y / k) - y / k) + (y / k - x)) by ring.
  eapply Rle_trans; [apply Rabs_triang|].
  assert (u * Rabs (y / k) <= u * ((1 + u) * Rabs x))
    by (apply Rmult_le_compat_l; lra).
  lra.
Qed.

(** C8 (as the code has it).  The value shown in electronvolts is the
    rounded product of the energy by 27.2114.  Dividing it by 27.2114 gives
    the energy back up to rounding: within a relative error of
    [2 * u + u^2] when each operation has a relative error of at most [u].
    For the six energies of the table (reference, exact and Hartree-Fock, for
    H2 and LiH) the binary64 round trip is exact. *)
Theorem hartree_round_trip_rounded (x : R) :
  hartreeToEV_fl fl x = fl (x * fl 27.2114)
  /\ Rabs (fl (hartreeToEV_fl fl x / fl 27.2114) - x)
     <= (2 * u + u * u) * Rabs x
  /\ Forall (fun e => (hartreeToEV64 e / 27.2114)%float = e)
       [(-1.13727)%float; (-7.8773)%float; (-1.1373)%float; (-7.8811)%float;
        (-1.1167)%float; (-7.8634)%float].
Proof.
  split; [reflexivity|]. split; [apply round_trip_fl|].
  repeat (apply Forall_cons; [vm_compute; reflexivity|]). apply Forall_nil.
Qed.
End Rounded.

(** C8, witness: a rounding always off by the unit roundoff, at the LiH
    reference energy. *)
Lemma hartree_round_trip_rounded_roundAway :
  Rabs (roundAway (hartreeToEV_fl roundAway (-7.8773) / roundAway 27.2114)
        - -7.8773)
  <= (2 * unitRoundoff + unitRoundoff * unitRoundoff) * Rabs (-7.8773).
Proof.
  apply (hartree_round_trip_rounded roundAway unitRoundoff roundAway_rel
           unitRoundoff_range (-7.8773)).
Defined.

(** C9, witness: the same rounding with an exact exponential, H2, pass 5,
    random value 0. *)
Lemma noise_bound_rounded_roundAway :
  error_fl roundAway exp (config initialState) 5 0
  <= 5 * exp (-0.1 * INR 5) + 0.00000000001.
Proof.
  apply (noise_bound_rounded roundAway exp unitRoundoff 0 roundAway_rel
           exp_exact_rel unitRoundoff_range).
  - lra.
  - lia.
  - lra.
Defined.
